(** * GeminiCast: the generation pipeline, the playback controller and the
      visualizer tap, embedded from App.tsx, services/geminiService.ts,
      types.ts and components/AudioVisualizer.tsx.

    Conventions of the embedding.
    - A JavaScript exception is a value of [Js.Exn]; code that may throw
      returns a [Js.Result].  [try { e } catch (_) {}] is [Js.try_catch].
    - A value that may be [undefined] or [null] is an [option].
    - Instants of the audio clock ([AudioContext.currentTime]) and playback
      offsets are exact numbers, modelled as [Z] (clock ticks); the rounding
      of IEEE doubles is not modelled.
    - Strings are sequences of code units below 256: the part of
      JavaScript's 16-bit code units that [ascii] holds.
    - What the browser and the provider decide (responses, parse results,
      decoded audio, whether [connect] raises) is a parameter of the model. *)

From Stdlib Require Import ZArith QArith Ascii String List Bool Lia Lqa DecimalString.
From stdpp Require Import base option list strings.
Import ListNotations.

(* ===================================================================== *)
(** ** JavaScript values the code relies on *)
(* ===================================================================== *)

Module Js.

Inductive ErrorName :=
| Error | TypeError | SyntaxError | RangeError
| InvalidStateError | InvalidCharacterError | EncodingError
| OtherError.

(** A thrown value: the constructor's name and its [message]. *)
Record Exn := mkExn { name : ErrorName; message : string }.

Inductive Result (A : Type) :=
| Ok (a : A)
| Throw (e : Exn).
Arguments Ok {A} a.
Arguments Throw {A} e.

Definition is_ok {A} (r : Result A) : bool :=
  match r with Ok _ => true | Throw _ => false end.

Definition fmap {A B} (f : A -> B) (r : Result A) : Result B :=
  match r with Ok a => Ok (f a) | Throw e => Throw e end.

#[global] Instance Result_ret : MRet Result := @Ok.
#[global] Instance Result_bind : MBind Result :=
  fun A B k r => match r with Ok a => k a | Throw e => Throw e end.

(** [try { body } catch (e) { handler }] *)
Definition try_catch {A} (body : Result A) (handler : Exn -> A) : A :=
  match body with
  | Ok a => a
  | Throw e => handler e
  end.

(** Truthiness of a [string | undefined]: [undefined] and the empty string
    are falsy. *)
Definition truthy (s : option string) : bool :=
  match s with
  | Some (String _ _) => true
  | _ => false
  end.

(** [a || b] on strings. *)
Definition or_else (a : option string) (b : string) : string :=
  match a with
  | Some (String c s) => String c s
  | _ => b
  end.

(** White space and line terminators removed by [String.prototype.trim],
    among the code units below 256: TAB, LF, VT, FF, CR (9 to 13), SPACE (32)
    and NO-BREAK SPACE (160).  The others that [trim] removes (U+1680,
    U+2000 to U+200A, U+2028, U+2029, U+202F, U+205F, U+3000, U+FEFF) are
    code units a [string] of this file cannot hold. *)
Definition is_white_space (c : ascii) : bool :=
  let n := nat_of_ascii c in
  ((9 <=? n) && (n <=? 13)) || (n =? 32) || (n =? 160).

Fixpoint trimStart (s : string) : string :=
  match s with
  | String c s' => if is_white_space c then trimStart s' else s
  | EmptyString => EmptyString
  end.

Fixpoint trimEnd (s : string) : string :=
  match s with
  | String c s' =>
      match trimEnd s' with
      | EmptyString => if is_white_space c then EmptyString else String c EmptyString
      | t => String c t
      end
  | EmptyString => EmptyString
  end.

Definition trim (s : string) : string := trimEnd (trimStart s).

(** [n.toString()] of an integer. *)
Definition toString (n : Z) : string := NilZero.string_of_int (Z.to_int n).

(** [Array.prototype.join] on an array of strings. *)
Definition join (sep : string) (xs : list string) : string := String.concat sep xs.

(** [s.charCodeAt(i)] for every [i], in order. *)
Definition charCodes (s : string) : list N := map N_of_ascii (list_ascii_of_string s).

Definition dquote : string := String (ascii_of_nat 34) EmptyString.
Definition newline : string := String (ascii_of_nat 10) EmptyString.

End Js.

Import Js(Result, Ok, Throw, Exn, mkExn).

(* ===================================================================== *)
(** ** The Web Audio primitives the application uses *)
(* ===================================================================== *)

Module WebAudio.

(** A decoded buffer; only its length in clock ticks is observable here. *)
Record AudioBuffer := { duration : Z }.

Inductive AudioContextState := suspended | running | closed.

Record AudioContext := { state : AudioContextState }.

(** [ctx.resume()]: the context runs once the promise it returns resolves;
    nothing the application does depends on when. *)
Definition resume (ctx : AudioContext) : AudioContext := {| state := running |}.

(** Where a source node's output may be routed. *)
Inductive Target := destination | analyser.

Definition Target_eqb (a b : Target) : bool :=
  match a, b with
  | destination, destination | analyser, analyser => true
  | _, _ => false
  end.

(** The handler stored in [source.onended].  The application installs one
    closure only (App.tsx, [togglePlayback]). *)
Inductive Handler := ResetPlayback.

(** An [AudioBufferSourceNode]: a one-shot playable. *)
Record AudioBufferSourceNode := {
  buffer : option AudioBuffer;
  outputs : list Target;
  (** [Some offset] once [start(0, offset)] was called *)
  started : option Z;
  (** [stop()] was called *)
  stopped : bool;
  onended : option Handler;
  (** the [ended] event was dispatched *)
  ended : bool
}.

(** The nodes created so far; a reference to a node is its index. *)
Abbreviation Heap := (list AudioBufferSourceNode).
Abbreviation Ref := nat.

Definition fresh_node : AudioBufferSourceNode :=
  {| buffer := None; outputs := []; started := None; stopped := false;
     onended := None; ended := false |}.

(** [ctx.createBufferSource()] *)
Definition createBufferSource (h : Heap) : Ref * Heap := (length h, h ++ [fresh_node]).

Definition set_buffer (b : AudioBuffer) (n : AudioBufferSourceNode) : AudioBufferSourceNode :=
  {| buffer := Some b; outputs := outputs n; started := started n;
     stopped := stopped n; onended := onended n; ended := ended n |}.

(** [node.connect(t)]: a connection that exists already is kept once. *)
Definition connect (t : Target) (n : AudioBufferSourceNode) : AudioBufferSourceNode :=
  {| buffer := buffer n;
     outputs := if existsb (Target_eqb t) (outputs n) then outputs n else outputs n ++ [t];
     started := started n; stopped := stopped n; onended := onended n; ended := ended n |}.

(** [node.start(0, offset)]: a negative offset is a [RangeError], a second
    [start] an [InvalidStateError]. *)
Definition start (offset : Z) (n : AudioBufferSourceNode) : Result AudioBufferSourceNode :=
  if (offset <? 0)%Z then
    Throw (mkExn Js.RangeError "The offset provided is less than the minimum bound")
  else match started n with
  | Some _ => Throw (mkExn Js.InvalidStateError "cannot call start more than once")
  | None =>
      Ok {| buffer := buffer n; outputs := outputs n; started := Some offset;
            stopped := stopped n; onended := onended n; ended := ended n |}
  end.

(** [node.stop()]: an [InvalidStateError] on a node never started. *)
Definition stop (n : AudioBufferSourceNode) : Result AudioBufferSourceNode :=
  match started n with
  | None => Throw (mkExn Js.InvalidStateError "cannot call stop without calling start first")
  | Some _ =>
      Ok {| buffer := buffer n; outputs := outputs n; started := started n;
            stopped := true; onended := onended n; ended := ended n |}
  end.

Definition set_onended (f : Handler) (n : AudioBufferSourceNode) : AudioBufferSourceNode :=
  {| buffer := buffer n; outputs := outputs n; started := started n;
     stopped := stopped n; onended := Some f; ended := ended n |}.

Definition mark_ended (n : AudioBufferSourceNode) : AudioBufferSourceNode :=
  {| buffer := buffer n; outputs := outputs n; started := started n;
     stopped := stopped n; onended := onended n; ended := true |}.

(** Why the browser dispatches [ended] to a source: the buffer was played
    to its end, or [stop()] was called on it. *)
Inductive EndCause := PlayedToEnd | StopCalled.

(** The browser may dispatch [ended] for cause [c]: once per node, to a
    node that was started; [StopCalled] needs a [stop()], [PlayedToEnd]
    none. *)
Definition may_end (c : EndCause) (n : AudioBufferSourceNode) : bool :=
  match started n with
  | None => false
  | Some _ =>
      negb (ended n) &&
      match c with
      | PlayedToEnd => negb (stopped n)
      | StopCalled => stopped n
      end
  end.

(** [try { h[r].stop(); } catch (e) {}] on the heap. *)
Definition stop_quietly (r : Ref) (h : Heap) : Heap :=
  match h !! r with
  | Some n => Js.try_catch (Js.fmap (fun n' => <[r := n']> h) (stop n)) (fun _ => h)
  | None => h
  end.

End WebAudio.

(* ===================================================================== *)
(** ** types.ts *)
(* ===================================================================== *)

Module Types.

Inductive LoadingStage :=
| IDLE | WRITING_SCRIPT | GENERATING_ART | SYNTHESIZING_AUDIO | COMPLETE | ERROR.

(** ['Host' | 'Guest'], the type the script is cast to. *)
Inductive Speaker := Host | Guest.

Definition Speaker_to_string (s : Speaker) : string :=
  match s with Host => "Host" | Guest => "Guest" end.

Definition Speaker_eqb (a b : Speaker) : bool :=
  match a, b with
  | Host, Host | Guest, Guest => true
  | _, _ => false
  end.

Record DialogueLine := { speaker : Speaker; text : string }.

Record PodcastScript := {
  title : string;
  topic : string;
  dialogue : list DialogueLine
}.

Record PodcastEpisode := {
  id : string;
  script : PodcastScript;
  coverImageBase64 : option string;
  audioBuffer : option WebAudio.AudioBuffer
}.

Record AudioVisualizerProps := {
  audioContext : option WebAudio.AudioContext;
  sourceNode : option WebAudio.Ref;
  isPlaying : bool
}.

End Types.

(* ===================================================================== *)
(** ** The provider client, as the service reads it *)
(* ===================================================================== *)

Module GenAI.

Record Blob := { data : option string }.
Record Part := { inlineData : option Blob }.
Record Content := { parts : option (list Part) }.
Record Candidate := { content : option Content }.

Record GenerateContentResponse := {
  text : option string;
  candidates : option (list Candidate)
}.

Record SpeakerVoiceConfig := { speaker : string; voiceName : string }.

Inductive Config :=
| JsonConfig (responseMimeType : string)
| ImageConfig (aspectRatio imageSize : string)
| SpeechConfig (speakerVoiceConfigs : list SpeakerVoiceConfig).

(** One call of [ai.models.generateContent]. *)
Record Request := { model : string; contents : string; config : Config }.

End GenAI.

(* ===================================================================== *)
(** ** services/geminiService.ts *)
(* ===================================================================== *)

Module GeminiService.

(** What the service reads from outside the program. *)
Record Env := {
  (** [process.env.API_KEY] *)
  API_KEY : option string;
  (** the provider's answer to a request, given how many requests were
      issued before it; a rejected promise is a [Throw] *)
  generateContent : nat -> GenAI.Request -> Result GenAI.GenerateContentResponse;
  (** [JSON.parse(text) as PodcastScript] *)
  JSON_parse : string -> Result Types.PodcastScript;
  atob : string -> Result string;
  (** [audioContext.decodeAudioData(bytes.buffer)] *)
  decodeAudioData : list N -> Result WebAudio.AudioBuffer
}.

(** An [async] function of the service: it reads the environment, appends
    the requests it issues to the log of requests, and resolves or rejects. *)
Definition Service (A : Type) : Type :=
  Env -> list GenAI.Request -> Result A * list GenAI.Request.

Definition ret {A} (a : A) : Service A := fun _ log => (Ok a, log).

Definition throw {A} (e : Exn) : Service A := fun _ log => (Throw e, log).

Definition bind {A B} (m : Service A) (k : A -> Service B) : Service B :=
  fun env log =>
    match m env log with
    | (Ok a, log') => k a env log'
    | (Throw e, log') => (Throw e, log')
    end.

#[global] Instance Service_ret : MRet Service := @ret.
#[global] Instance Service_bind : MBind Service := fun A B k m => bind m k.

Definition ask : Service Env := fun env log => (Ok env, log).

Definition lift {A} (r : Result A) : Service A := fun _ log => (r, log).

(** [await ai.models.generateContent(req)] *)
Definition send (req : GenAI.Request) : Service GenAI.GenerateContentResponse :=
  fun env log => (generateContent env (length log) req, log ++ [req]).

Definition getAiClient : Service unit :=
  env ← ask;
  if negb (Js.truthy (API_KEY env))
  then throw (mkExn Js.Error "API_KEY not found in environment")
  else ret tt.

(** *** Step 1: the script *)

Definition scriptPrompt (topic : string) : string :=
  "Create a short, engaging podcast script about: " +:+ Js.dquote +:+ topic +:+ Js.dquote +:+ "."
  +:+ Js.newline +:+
  "  There are two speakers: " +:+ Js.dquote +:+ "Host" +:+ Js.dquote
  +:+ " (energetic, knowledgeable) and " +:+ Js.dquote +:+ "Guest" +:+ Js.dquote
  +:+ " (curious, asks good questions)."
  +:+ Js.newline +:+
  "  The conversation should be approximately 6-8 exchanges long."
  +:+ Js.newline +:+
  "  Keep it punchy and fun."
  +:+ Js.newline +:+
  "  Return ONLY valid JSON.".

Definition scriptRequest (prompt : string) : GenAI.Request :=
  {| GenAI.model := "gemini-3-pro-preview";
     GenAI.contents := prompt;
     GenAI.config := GenAI.JsonConfig "application/json" |}.

Definition generateScript (topic : string) : Service Types.PodcastScript :=
  getAiClient;;
  let prompt := scriptPrompt topic in
  response ← send (scriptRequest prompt);
  let text := GenAI.text response in
  if negb (Js.truthy text)
  then throw (mkExn Js.Error "No script generated")
  else
    env ← ask;
    lift (JSON_parse env (default EmptyString text)).

(** *** Step 2: the cover art *)

Definition coverPrompt (title topic : string) : string :=
  "Album cover art for a podcast titled " +:+ Js.dquote +:+ title +:+ Js.dquote
  +:+ " about " +:+ topic +:+ ". "
  +:+ Js.newline +:+
  "  Minimalist, high-end, 4k, trending on artstation, vivid colors, abstract geometric shapes or relevant symbolism. "
  +:+ Js.newline +:+
  "  No text on image other than the title if possible, or just clean art.".

(** The [for (const part of parts)] loop: the first part that has an
    [inlineData] sets [base64Data] to its [data] and breaks. *)
Fixpoint scanParts (parts : list GenAI.Part) (base64Data : option string) : option string :=
  match parts with
  | [] => base64Data
  | part :: rest =>
      match GenAI.inlineData part with
      | Some blob => GenAI.data blob
      | None => scanParts rest base64Data
      end
  end.

(** Lines 117-125: [base64Data] after the extraction.  The guard reads
    [response.candidates[0].content.parts] without optional chaining: an
    empty candidate array, or a first candidate without [content], is a
    [TypeError] (its message is the engine's; V8's wording is used). *)
Definition extractImage (response : GenAI.GenerateContentResponse) : Result (option string) :=
  let base64Data := Some EmptyString in
  match GenAI.candidates response with
  | None => Ok base64Data
  | Some [] =>
      Throw (mkExn Js.TypeError "Cannot read properties of undefined (reading 'content')")
  | Some (candidate :: _) =>
      match GenAI.content candidate with
      | None =>
          Throw (mkExn Js.TypeError "Cannot read properties of undefined (reading 'parts')")
      | Some content =>
          match GenAI.parts content with
          | None => Ok base64Data
          | Some parts => Ok (scanParts parts base64Data)
          end
      end
  end.

Definition coverArtRequest (prompt : string) : GenAI.Request :=
  {| GenAI.model := "gemini-3-pro-image-preview";
     GenAI.contents := prompt;
     GenAI.config := GenAI.ImageConfig "1:1" "1K" |}.

Definition generateCoverArt (title topic : string) : Service string :=
  getAiClient;;
  let prompt := coverPrompt title topic in
  response ← send (coverArtRequest prompt);
  base64Data ← lift (extractImage response);
  if negb (Js.truthy base64Data)
  then throw (mkExn Js.Error "No image generated")
  else ret ("data:image/png;base64," +:+ default EmptyString base64Data).

(** *** Step 3: the audio *)

(** Line 146: every dialogue entry rendered as [speaker: text]. *)
Definition renderLine (line : Types.DialogueLine) : string :=
  Types.Speaker_to_string (Types.speaker line) +:+ ": " +:+ Types.text line.

Definition scriptText (script : Types.PodcastScript) : string :=
  Js.join Js.newline (map renderLine (Types.dialogue script)).

Definition audioPrompt (script : Types.PodcastScript) : string :=
  "Read the following dialogue exactly as written, assigning the voices to the correct speakers."
  +:+ Js.newline +:+ Js.newline +:+ scriptText script.

Definition ttsRequest (prompt guestVoice : string) : GenAI.Request :=
  {| GenAI.model := "gemini-2.5-flash-preview-tts";
     GenAI.contents := prompt;
     GenAI.config := GenAI.SpeechConfig
       [ {| GenAI.speaker := "Host"; GenAI.voiceName := "Fenrir" |};
         {| GenAI.speaker := "Guest"; GenAI.voiceName := guestVoice |} ] |}.

(** Line 202: [r.candidates?.[0]?.content?.parts?.[0]?.inlineData?.data] *)
Definition firstInlineData (r : GenAI.GenerateContentResponse) : option string :=
  cs ← GenAI.candidates r;
  c ← cs !! 0;
  ct ← GenAI.content c;
  ps ← GenAI.parts ct;
  p ← ps !! 0;
  b ← GenAI.inlineData p;
  GenAI.data b.

(** Lines 201-204: [audioBase64] after the extraction. *)
Definition extractAudio (safeResponse : GenAI.GenerateContentResponse) : string :=
  if Js.truthy (firstInlineData safeResponse)
  then default EmptyString (firstInlineData safeResponse)
  else EmptyString.

Definition generateAudio (script : Types.PodcastScript) (audioContext : WebAudio.AudioContext)
  : Service WebAudio.AudioBuffer :=
  getAiClient;;
  let prompt := audioPrompt script in
  response ← send (ttsRequest prompt "Nova");
  safeResponse ← send (ttsRequest prompt "Kore");
  let audioBase64 := extractAudio safeResponse in
  if negb (Js.truthy (Some audioBase64))
  then throw (mkExn Js.Error "No audio generated")
  else
    env ← ask;
    binaryString ← lift (atob env audioBase64);
    let bytes := Js.charCodes binaryString in
    lift (decodeAudioData env bytes).

End GeminiService.

(* ===================================================================== *)
(** ** App.tsx *)
(* ===================================================================== *)

Module App.

(** The component's state ([useState]) and refs ([useRef]), and the source
    nodes created so far. *)
Record State := {
  topic : string;
  loadingStage : Types.LoadingStage;
  episode : option Types.PodcastEpisode;
  isPlaying : bool;
  error : option string;
  audioContextRef : option WebAudio.AudioContext;
  sourceNodeRef : option WebAudio.Ref;
  startTimeRef : Z;
  pausedTimeRef : Z;
  nodes : WebAudio.Heap
}.

Definition setLoadingStage (v : Types.LoadingStage) (st : State) : State :=
  {| topic := topic st; loadingStage := v; episode := episode st;
     isPlaying := isPlaying st; error := error st;
     audioContextRef := audioContextRef st; sourceNodeRef := sourceNodeRef st;
     startTimeRef := startTimeRef st; pausedTimeRef := pausedTimeRef st;
     nodes := nodes st |}.

Definition setEpisode (v : option Types.PodcastEpisode) (st : State) : State :=
  {| topic := topic st; loadingStage := loadingStage st; episode := v;
     isPlaying := isPlaying st; error := error st;
     audioContextRef := audioContextRef st; sourceNodeRef := sourceNodeRef st;
     startTimeRef := startTimeRef st; pausedTimeRef := pausedTimeRef st;
     nodes := nodes st |}.

Definition setIsPlaying (v : bool) (st : State) : State :=
  {| topic := topic st; loadingStage := loadingStage st; episode := episode st;
     isPlaying := v; error := error st;
     audioContextRef := audioContextRef st; sourceNodeRef := sourceNodeRef st;
     startTimeRef := startTimeRef st; pausedTimeRef := pausedTimeRef st;
     nodes := nodes st |}.

Definition setError (v : option string) (st : State) : State :=
  {| topic := topic st; loadingStage := loadingStage st; episode := episode st;
     isPlaying := isPlaying st; error := v;
     audioContextRef := audioContextRef st; sourceNodeRef := sourceNodeRef st;
     startTimeRef := startTimeRef st; pausedTimeRef := pausedTimeRef st;
     nodes := nodes st |}.

Definition set_audioContextRef (v : option WebAudio.AudioContext) (st : State) : State :=
  {| topic := topic st; loadingStage := loadingStage st; episode := episode st;
     isPlaying := isPlaying st; error := error st;
     audioContextRef := v; sourceNodeRef := sourceNodeRef st;
     startTimeRef := startTimeRef st; pausedTimeRef := pausedTimeRef st;
     nodes := nodes st |}.

Definition set_sourceNodeRef (v : option WebAudio.Ref) (st : State) : State :=
  {| topic := topic st; loadingStage := loadingStage st; episode := episode st;
     isPlaying := isPlaying st; error := error st;
     audioContextRef := audioContextRef st; sourceNodeRef := v;
     startTimeRef := startTimeRef st; pausedTimeRef := pausedTimeRef st;
     nodes := nodes st |}.

Definition set_startTimeRef (v : Z) (st : State) : State :=
  {| topic := topic st; loadingStage := loadingStage st; episode := episode st;
     isPlaying := isPlaying st; error := error st;
     audioContextRef := audioContextRef st; sourceNodeRef := sourceNodeRef st;
     startTimeRef := v; pausedTimeRef := pausedTimeRef st;
     nodes := nodes st |}.

Definition set_pausedTimeRef (v : Z) (st : State) : State :=
  {| topic := topic st; loadingStage := loadingStage st; episode := episode st;
     isPlaying := isPlaying st; error := error st;
     audioContextRef := audioContextRef st; sourceNodeRef := sourceNodeRef st;
     startTimeRef := startTimeRef st; pausedTimeRef := v;
     nodes := nodes st |}.

Definition set_nodes (v : WebAudio.Heap) (st : State) : State :=
  {| topic := topic st; loadingStage := loadingStage st; episode := episode st;
     isPlaying := isPlaying st; error := error st;
     audioContextRef := audioContextRef st; sourceNodeRef := sourceNodeRef st;
     startTimeRef := startTimeRef st; pausedTimeRef := pausedTimeRef st;
     nodes := v |}.

Definition setTopic (v : string) (st : State) : State :=
  {| topic := v; loadingStage := loadingStage st; episode := episode st;
     isPlaying := isPlaying st; error := error st;
     audioContextRef := audioContextRef st; sourceNodeRef := sourceNodeRef st;
     startTimeRef := startTimeRef st; pausedTimeRef := pausedTimeRef st;
     nodes := nodes st |}.

(** The state of a freshly mounted component. *)
Definition initial : State :=
  {| topic := EmptyString; loadingStage := Types.IDLE; episode := None;
     isPlaying := false; error := None;
     audioContextRef := None; sourceNodeRef := None;
     startTimeRef := 0; pausedTimeRef := 0; nodes := [] |}.

(** What [handleGenerate] reads from the browser. *)
Record Browser := {
  service : GeminiService.Env;
  (** [new AudioContextClass()] *)
  new_AudioContext : Result WebAudio.AudioContext;
  (** [Date.now()] *)
  Date_now : Z;
  (** when both promises given to [Promise.all] reject: the audio promise
      rejects before the art promise *)
  audio_rejects_first : bool
}.

Definition initAudio (b : Browser) (st : State) : Result State :=
  st ← match audioContextRef st with
       | None =>
           Js.fmap (fun ctx => set_audioContextRef (Some ctx) st) (new_AudioContext b)
       | Some _ => Ok st
       end;
  match audioContextRef st with
  | Some ctx =>
      match WebAudio.state ctx with
      | WebAudio.suspended => Ok (set_audioContextRef (Some (WebAudio.resume ctx)) st)
      | _ => Ok st
      end
  | None => Throw (mkExn Js.TypeError "Cannot read properties of null (reading 'state')")
  end.

(** [Promise.all([a, b])]: both results, or the reason of the promise that
    rejects first. *)
Definition Promise_all {A B} (b_rejects_first : bool) (a : Result A) (b : Result B)
  : Result (A * B) :=
  match a, b with
  | Ok x, Ok y => Ok (x, y)
  | Throw e, Ok _ => Throw e
  | Ok _, Throw e => Throw e
  | Throw ea, Throw eb => if b_rejects_first then Throw eb else Throw ea
  end.

(** Lines 35-42: what [handleGenerate] does before its [try] block. *)
Definition resetForGeneration (st : State) : State :=
  let st := setError None st in
  let st := setEpisode None st in
  let st := setIsPlaying false st in
  match sourceNodeRef st with
  | Some r => set_nodes (WebAudio.stop_quietly r (nodes st)) st
  | None => st
  end.

(** Lines 45-70: the [try] block.  The state reached, how the block ended,
    and the log of requests. *)
Definition generation (b : Browser) (st : State) (log : list GenAI.Request)
  : State * Result unit * list GenAI.Request :=
  match initAudio b st with
  | Throw e => (st, Throw e, log)
  | Ok st =>
      let st := setLoadingStage Types.WRITING_SCRIPT st in
      match GeminiService.generateScript (topic st) (service b) log with
      | (Throw e, log) => (st, Throw e, log)
      | (Ok script, log) =>
          let st := setLoadingStage Types.GENERATING_ART st in
          let '(artPromise, log) :=
            GeminiService.generateCoverArt (Types.title script) (Types.topic script)
              (service b) log in
          let st := setLoadingStage Types.SYNTHESIZING_AUDIO st in
          match audioContextRef st with
          | None => (st, Throw (mkExn Js.Error "Audio Context not initialized"), log)
          | Some ctx =>
              let '(audioPromise, log) :=
                GeminiService.generateAudio script ctx (service b) log in
              match Promise_all (audio_rejects_first b) artPromise audioPromise with
              | Throw e => (st, Throw e, log)
              | Ok (coverImageBase64, audioBuffer) =>
                  let st := setEpisode
                    (Some {| Types.id := Js.toString (Date_now b);
                             Types.script := script;
                             Types.coverImageBase64 := Some coverImageBase64;
                             Types.audioBuffer := Some audioBuffer |}) st in
                  let st := setLoadingStage Types.COMPLETE st in
                  (st, Ok tt, log)
              end
          end
      end
  end.

Definition defaultMessage : string := "Something went wrong creating your podcast.".

Definition handleGenerate (b : Browser) (st : State) (log : list GenAI.Request)
  : State * list GenAI.Request :=
  if negb (Js.truthy (Some (Js.trim (topic st)))) then (st, log)
  else
    let st := resetForGeneration st in
    match generation b st log with
    | (st, Ok _, log) => (st, log)
    | (st, Throw err, log) =>
        let st := setError (Some (Js.or_else (Some (Js.message err)) defaultMessage)) st in
        let st := setLoadingStage Types.ERROR st in
        (st, log)
    end.

(** [togglePlayback], called when the audio clock reads [currentTime]. *)
Definition togglePlayback (currentTime : Z) (st : State) : Result State :=
  match episode st with
  | None => Ok st
  | Some ep =>
  match Types.audioBuffer ep with
  | None => Ok st
  | Some audioBuffer =>
  match audioContextRef st with
  | None => Ok st
  | Some ctx =>
      if isPlaying st then
        match sourceNodeRef st with
        | Some r =>
            let st := set_nodes (WebAudio.stop_quietly r (nodes st)) st in
            let st := set_pausedTimeRef
                        (pausedTimeRef st + (currentTime - startTimeRef st))%Z st in
            Ok (setIsPlaying false st)
        | None => Ok st
        end
      else
        let '(r, heap) := WebAudio.createBufferSource (nodes st) in
        let source := WebAudio.fresh_node in
        let source := WebAudio.set_buffer audioBuffer source in
        let source := WebAudio.connect WebAudio.destination source in
        source ← WebAudio.start (pausedTimeRef st) source;
        let st := set_startTimeRef currentTime st in
        let st := set_sourceNodeRef (Some r) st in
        let st := setIsPlaying true st in
        let source := WebAudio.set_onended WebAudio.ResetPlayback source in
        Ok (set_nodes (<[r := source]> heap) st)
  end end end.

(** Lines 102-109: the closure assigned to [source.onended]. *)
Definition run_handler (f : WebAudio.Handler) (st : State) : State :=
  match f with
  | WebAudio.ResetPlayback =>
      let st := setIsPlaying false st in
      set_pausedTimeRef 0 st
  end.

(** The browser dispatches [ended] to node [r] for cause [c]; [None] when it
    may not. *)
Definition dispatch_ended (c : WebAudio.EndCause) (r : WebAudio.Ref) (st : State)
  : option State :=
  n ← nodes st !! r;
  if WebAudio.may_end c n then
    let st := set_nodes (<[r := WebAudio.mark_ended n]> (nodes st)) st in
    Some (match WebAudio.onended n with
          | Some f => run_handler f st
          | None => st
          end)
  else None.

(** One rendered turn of the transcript: the [key], the classes chosen by the
    speaker, the label and the text. *)
Record Turn := {
  key : nat;
  rowClass : string;
  bubbleClass : string;
  label : string;
  body : string
}.

Definition renderTurn (idx : nat) (line : Types.DialogueLine) : Turn :=
  let host := Types.Speaker_eqb (Types.speaker line) Types.Host in
  {| key := idx;
     rowClass := "flex flex-col " +:+ (if host then "items-start" else "items-end");
     bubbleClass :=
       "max-w-[85%] p-3 rounded-2xl text-sm leading-relaxed " +:+
       (if host
        then "bg-indigo-500/20 rounded-tl-none border border-indigo-500/30 text-indigo-100"
        else "bg-purple-500/20 rounded-tr-none border border-purple-500/30 text-purple-100");
     label := Types.Speaker_to_string (Types.speaker line);
     body := Types.text line |}.

Definition renderScript (st : State) : option (list Turn) :=
  match episode st with
  | None => None
  | Some ep => Some (imap renderTurn (Types.dialogue (Types.script ep)))
  end.

(** What can happen to the component, and a run of such events. *)
Inductive Event :=
| Generate (b : Browser)
| Toggle (currentTime : Z)
| Ended (c : WebAudio.EndCause) (r : WebAudio.Ref).

Definition step (e : Event) (s : State * list GenAI.Request)
  : option (State * list GenAI.Request) :=
  match e with
  | Generate b => Some (handleGenerate b (fst s) (snd s))
  | Toggle t =>
      (* an exception escaping the click handler leaves the state as it was *)
      match togglePlayback t (fst s) with
      | Ok st => Some (st, snd s)
      | Throw _ => Some s
      end
  | Ended c r => st ← dispatch_ended c r (fst s); Some (st, snd s)
  end.

Fixpoint run (es : list Event) (s : State * list GenAI.Request)
  : option (State * list GenAI.Request) :=
  match es with
  | [] => Some s
  | e :: es' => s' ← step e s; run es' s'
  end.

End App.

(* ===================================================================== *)
(** ** components/AudioVisualizer.tsx *)
(* ===================================================================== *)

Module AudioVisualizer.

Record Canvas := {
  width : Z;
  height : Z;
  (** [canvas.getContext('2d')] is not null *)
  context2d : bool
}.

Record AnalyserNode := { fftSize : nat }.

Definition frequencyBinCount (a : AnalyserNode) : nat := fftSize a / 2.

(** The component's refs, the animation frames the browser holds for it, and
    the source nodes. *)
Record World := {
  canvasRef : option Canvas;
  analyserRef : option AnalyserNode;
  animationRef : nat;
  (** handles requested and not cancelled *)
  frames : list nat;
  (** the handle the next [requestAnimationFrame] returns *)
  next_frame : nat;
  heap : WebAudio.Heap
}.

Definition set_analyserRef (v : option AnalyserNode) (w : World) : World :=
  {| canvasRef := canvasRef w; analyserRef := v; animationRef := animationRef w;
     frames := frames w; next_frame := next_frame w; heap := heap w |}.

Definition set_animationRef (v : nat) (w : World) : World :=
  {| canvasRef := canvasRef w; analyserRef := analyserRef w; animationRef := v;
     frames := frames w; next_frame := next_frame w; heap := heap w |}.

Definition set_heap (v : WebAudio.Heap) (w : World) : World :=
  {| canvasRef := canvasRef w; analyserRef := analyserRef w;
     animationRef := animationRef w;
     frames := frames w; next_frame := next_frame w; heap := v |}.

Definition cancelAnimationFrame (handle : nat) (w : World) : World :=
  {| canvasRef := canvasRef w; analyserRef := analyserRef w;
     animationRef := animationRef w;
     frames := filter (fun h => h <> handle) (frames w);
     next_frame := next_frame w; heap := heap w |}.

Definition requestAnimationFrame (w : World) : nat * World :=
  (next_frame w,
   {| canvasRef := canvasRef w; analyserRef := analyserRef w;
      animationRef := animationRef w;
      frames := frames w ++ [next_frame w];
      next_frame := S (next_frame w); heap := heap w |}).

(** Whether the browser refuses [sourceNode.connect(analyser)] for a node in
    a given condition (connected already, finished, ...), and with what. *)
Record Platform := {
  connect_raises : WebAudio.AudioBufferSourceNode -> option Exn
}.

(** [sourceNode.connect(analyserRef.current)] *)
Definition connectAnalyser (p : Platform) (r : WebAudio.Ref) (w : World) : Result World :=
  match heap w !! r with
  | Some n =>
      match connect_raises p n with
      | Some e => Throw e
      | None => Ok (set_heap (<[r := WebAudio.connect WebAudio.analyser n]> (heap w)) w)
      end
  | None => Ok w
  end.

(** Lines 34-38: [try { sourceNode.connect(analyserRef.current); } catch(e) {}] *)
Definition attach (p : Platform) (r : WebAudio.Ref) (w : World) : Result World :=
  Js.try_catch (Js.fmap Ok (connectAnalyser p r w)) (fun _ => Ok w).

(** One call of [draw]: the next frame is requested and its handle stored;
    the bars painted on the canvas are not part of the state. *)
Definition draw (w : World) : World :=
  let '(handle, w) := requestAnimationFrame w in
  set_animationRef handle w.

(** The body of the effect.  [true] beside the state: a cleanup function was
    returned. *)
Definition effect (p : Platform) (props : Types.AudioVisualizerProps) (w : World)
  : Result (World * bool) :=
  match Types.audioContext props, Types.sourceNode props, Types.isPlaying props with
  | Some audioContext, Some sourceNode, true =>
      match canvasRef w with
      | None => Ok (w, false)
      | Some canvas =>
          if negb (context2d canvas) then Ok (w, false)
          else
            let w := match analyserRef w with
                     | None => set_analyserRef (Some {| fftSize := 256 |}) w
                     | Some _ => w
                     end in
            w ← attach p sourceNode w;
            let w := draw w in
            Ok (w, true)
      end
  | _, _, _ =>
      let w := if Nat.eqb (animationRef w) 0 then w
               else cancelAnimationFrame (animationRef w) w in
      Ok (w, false)
  end.

(** The cleanup function the effect returns. *)
Definition cleanup (w : World) : World := cancelAnimationFrame (animationRef w) w.

End AudioVisualizer.

(* ===================================================================== *)
(** ** App.tsx: what the returned markup shows *)
(* ===================================================================== *)

Module AppView.

Definition LoadingStage_eqb (a b : Types.LoadingStage) : bool :=
  match a, b with
  | Types.IDLE, Types.IDLE
  | Types.WRITING_SCRIPT, Types.WRITING_SCRIPT
  | Types.GENERATING_ART, Types.GENERATING_ART
  | Types.SYNTHESIZING_AUDIO, Types.SYNTHESIZING_AUDIO
  | Types.COMPLETE, Types.COMPLETE
  | Types.ERROR, Types.ERROR => true
  | _, _ => false
  end.

(** Lines 160, 164 and 172: the input is disabled, the button shows its
    spinner and the list of stages is rendered. *)
Definition busy (st : App.State) : bool :=
  negb (LoadingStage_eqb (App.loadingStage st) Types.IDLE) &&
  negb (LoadingStage_eqb (App.loadingStage st) Types.COMPLETE) &&
  negb (LoadingStage_eqb (App.loadingStage st) Types.ERROR).

(** Line 189: [{error && (...)}], the error box. *)
Definition showsError (st : App.State) : bool := Js.truthy (App.error st).

(** Line 197: [{episode && loadingStage === LoadingStage.COMPLETE && (...)}],
    the player card and the transcript. *)
Definition showsResults (st : App.State) : bool :=
  match App.episode st with
  | Some _ => LoadingStage_eqb (App.loadingStage st) Types.COMPLETE
  | None => false
  end.

End AppView.

(* ===================================================================== *)
(** ** components/AudioVisualizer.tsx: the frames and the bars *)
(* ===================================================================== *)

Module Frames.

(** The browser runs the callback requested under [handle]: the request is
    consumed and [draw] runs (and requests the next frame).  [None] when no
    such request is pending. *)
Definition fire (handle : nat) (w : AudioVisualizer.World) : option AudioVisualizer.World :=
  if decide (handle ∈ AudioVisualizer.frames w) then
    Some (AudioVisualizer.draw
            {| AudioVisualizer.canvasRef := AudioVisualizer.canvasRef w;
               AudioVisualizer.analyserRef := AudioVisualizer.analyserRef w;
               AudioVisualizer.animationRef := AudioVisualizer.animationRef w;
               AudioVisualizer.frames :=
                 filter (fun h => h <> handle) (AudioVisualizer.frames w);
               AudioVisualizer.next_frame := AudioVisualizer.next_frame w;
               AudioVisualizer.heap := AudioVisualizer.heap w |})
  else None.

(** The browser fires the pending frame of the redraw loop [n] times. *)
Fixpoint fire_loop (n : nat) (w : AudioVisualizer.World) : option AudioVisualizer.World :=
  match n with
  | 0 => Some w
  | S n' => w' ← fire (AudioVisualizer.animationRef w) w; fire_loop n' w'
  end.

End Frames.

Module Bars.

(** One [ctx.fillRect(x, y, w, h)].  Coordinates are exact rationals; on the
    component's own canvas (600 by 100, 128 bins) every value below is a
    multiple of 1/32 and is represented exactly by a double. *)
Record Rect := { x : Q; y : Q; w : Q; h : Q }.

(** Line 51: [(canvas.width / bufferLength) * 2.5] *)
Definition barWidth (canvas : AudioVisualizer.Canvas) (bufferLength : nat) : Q :=
  ((inject_Z (AudioVisualizer.width canvas) / inject_Z (Z.of_nat bufferLength)) * (5 # 2))%Q.

(** Lines 55-66: the loop over the bins, from the bin at hand on, with the
    running [x]. *)
Fixpoint loop (canvas : AudioVisualizer.Canvas) (barWidth : Q) (dataArray : list Z) (x : Q)
  : list Rect :=
  match dataArray with
  | [] => []
  | d :: rest =>
      let barHeight := (inject_Z d / 2)%Q in
      {| x := x;
         y := (inject_Z (AudioVisualizer.height canvas) - barHeight)%Q;
         w := barWidth;
         h := barHeight |}
      :: loop canvas barWidth rest (x + (barWidth + 1))%Q
  end.

(** Lines 51-66: the rectangles one [draw] fills for the snapshot
    [dataArray], whose length is [bufferLength]. *)
Definition bars (canvas : AudioVisualizer.Canvas) (dataArray : list Z) : list Rect :=
  loop canvas (barWidth canvas (length dataArray)) dataArray 0%Q.

End Bars.

(* ===================================================================== *)
(** ** Predicates used to state the properties *)
(* ===================================================================== *)

Module Spec.

(** The guard of [togglePlayback] passes: an episode with a decoded buffer,
    and an audio context. *)
Definition playable (st : App.State) : bool :=
  match App.episode st with
  | Some ep =>
      match Types.audioBuffer ep, App.audioContextRef st with
      | Some _, Some _ => true
      | _, _ => false
      end
  | None => false
  end.

(** The node [togglePlayback] leaves in the heap when it starts [buf] at
    [offset]. *)
Definition playing_node (buf : WebAudio.AudioBuffer) (offset : Z)
  : WebAudio.AudioBufferSourceNode :=
  {| WebAudio.buffer := Some buf;
     WebAudio.outputs := [WebAudio.destination];
     WebAudio.started := Some offset;
     WebAudio.stopped := false;
     WebAudio.onended := Some WebAudio.ResetPlayback;
     WebAudio.ended := false |}.

(** Every source node of the heap carries the application's [onended]
    closure. *)
Definition handlers_installed (h : WebAudio.Heap) : Prop :=
  Forall (fun n => WebAudio.onended n = Some WebAudio.ResetPlayback) h.

(** What [handleGenerate] leaves alone in its [try] block: the playback
    timeline, the heap, and the fields it has reset before. *)
Definition playback_frame (st st' : App.State) : Prop :=
  App.nodes st' = App.nodes st /\
  App.pausedTimeRef st' = App.pausedTimeRef st /\
  App.startTimeRef st' = App.startTimeRef st /\
  App.isPlaying st' = App.isPlaying st /\
  App.sourceNodeRef st' = App.sourceNodeRef st /\
  App.topic st' = App.topic st.

(** The three stages as [handleGenerate] runs them from the log [log], and
    what it means for each to fail. *)
Definition script_fails (b : App.Browser) (st : App.State) (log : list GenAI.Request) : Prop :=
  exists e log1,
    GeminiService.generateScript (App.topic st) (App.service b) log = (Throw e, log1).

Definition art_fails (b : App.Browser) (st : App.State) (log : list GenAI.Request) : Prop :=
  exists script log1 e log2,
    GeminiService.generateScript (App.topic st) (App.service b) log = (Ok script, log1) /\
    GeminiService.generateCoverArt (Types.title script) (Types.topic script)
      (App.service b) log1 = (Throw e, log2).

Definition audio_fails (b : App.Browser) (st : App.State) (log : list GenAI.Request) : Prop :=
  exists script log1 art log2 ctx e log3,
    GeminiService.generateScript (App.topic st) (App.service b) log = (Ok script, log1) /\
    GeminiService.generateCoverArt (Types.title script) (Types.topic script)
      (App.service b) log1 = (art, log2) /\
    GeminiService.generateAudio script ctx (App.service b) log2 = (Throw e, log3).

(** [handleGenerate] takes the request: the topic is not blank. *)
Definition submits (st : App.State) : bool := Js.truthy (Some (Js.trim (App.topic st))).

(** The image answer has a candidate list whose first candidate is missing
    or has no [content]. *)
Definition no_first_content (r : GenAI.GenerateContentResponse) : bool :=
  match GenAI.candidates r with
  | Some [] => true
  | Some (c :: _) => match GenAI.content c with None => true | Some _ => false end
  | None => false
  end.

(** The parts of the first candidate, when the answer has them. *)
Definition first_parts (r : GenAI.GenerateContentResponse) : list GenAI.Part :=
  default [] (cs ← GenAI.candidates r; c ← cs !! 0; ct ← GenAI.content c; GenAI.parts ct).

(** The payload of a part, when it has a non-empty one. *)
Definition has_payload (p : GenAI.Part) : bool :=
  Js.truthy (GenAI.inlineData p ≫= GenAI.data).

Definition is_line_feed (c : ascii) : bool := Nat.eqb (nat_of_ascii c) 10.

Fixpoint no_line_feed (s : string) : bool :=
  match s with
  | EmptyString => true
  | String c s' => negb (is_line_feed c) && no_line_feed s'
  end.

(** The lines of a text: the pieces between its line feeds. *)
Fixpoint split_lines (s : string) : list string :=
  match s with
  | EmptyString => [EmptyString]
  | String c s' =>
      match split_lines s' with
      | l :: ls => if is_line_feed c then EmptyString :: l :: ls else String c l :: ls
      | [] => []
      end
  end.

(** *** A provider and a browser to run the code on *)

Definition sushi : Types.PodcastScript :=
  {| Types.title := "Rolling Through Time";
     Types.topic := "The history of Sushi";
     Types.dialogue :=
       [ {| Types.speaker := Types.Host; Types.text := "Welcome to the show!" |};
         {| Types.speaker := Types.Guest; Types.text := "Where did sushi begin?" |};
         {| Types.speaker := Types.Host; Types.text := "As a way to keep fish." |} ] |}.

Definition text_part : GenAI.Part := {| GenAI.inlineData := None |}.

Definition inline_part (d : string) : GenAI.Part :=
  {| GenAI.inlineData := Some {| GenAI.data := Some d |} |}.

Definition response_of (parts : list GenAI.Part) : GenAI.GenerateContentResponse :=
  {| GenAI.text := None;
     GenAI.candidates := Some [ {| GenAI.content := Some {| GenAI.parts := Some parts |} |} ] |}.

Definition empty_response : GenAI.GenerateContentResponse :=
  {| GenAI.text := None; GenAI.candidates := None |}.

(** The provider answers the script request with a JSON text, the image
    request with [image], the first speech request with an inline payload
    and the second with [speech]. *)
Definition provider (image speech : GenAI.GenerateContentResponse) : GeminiService.Env :=
  {| GeminiService.API_KEY := Some "key";
     GeminiService.generateContent := fun n _ =>
       match n with
       | 0 => Ok {| GenAI.text := Some "{...}"; GenAI.candidates := None |}
       | 1 => Ok image
       | 2 => Ok (response_of [inline_part "UklGRg=="])
       | _ => Ok speech
       end;
     GeminiService.JSON_parse := fun _ => Ok sushi;
     GeminiService.atob := fun s => Ok s;
     GeminiService.decodeAudioData := fun bytes =>
       Ok {| WebAudio.duration := Z.of_nat (length bytes) |} |}.

(** A provider that answers every request with an empty response. *)
Definition silent_provider : GeminiService.Env :=
  {| GeminiService.API_KEY := Some "key";
     GeminiService.generateContent := fun _ _ => Ok empty_response;
     GeminiService.JSON_parse := fun _ => Ok sushi;
     GeminiService.atob := fun s => Ok s;
     GeminiService.decodeAudioData := fun bytes =>
       Ok {| WebAudio.duration := Z.of_nat (length bytes) |} |}.

Definition browser (image speech : GenAI.GenerateContentResponse) : App.Browser :=
  {| App.service := provider image speech;
     App.new_AudioContext := Ok {| WebAudio.state := WebAudio.suspended |};
     App.Date_now := 1700000000000;
     App.audio_rejects_first := false |}.

(** A browser in which [connect] raises on a node that is connected to the
    analyser already. *)
Definition strict_platform : AudioVisualizer.Platform :=
  {| AudioVisualizer.connect_raises := fun n =>
       if existsb (WebAudio.Target_eqb WebAudio.analyser) (WebAudio.outputs n)
       then Some (mkExn Js.InvalidStateError "already connected")
       else None |}.

(** A mounted visualizer: a canvas, no analyser yet, no frame requested, and
    one source that is playing. *)
Definition mounted : AudioVisualizer.World :=
  {| AudioVisualizer.canvasRef :=
       Some {| AudioVisualizer.width := 600; AudioVisualizer.height := 100;
               AudioVisualizer.context2d := true |};
     AudioVisualizer.analyserRef := None;
     AudioVisualizer.animationRef := 0;
     AudioVisualizer.frames := [];
     AudioVisualizer.next_frame := 1;
     AudioVisualizer.heap := [playing_node {| WebAudio.duration := 8 |} 0] |}.

Definition playing_props : Types.AudioVisualizerProps :=
  {| Types.audioContext := Some {| WebAudio.state := WebAudio.running |};
     Types.sourceNode := Some 0;
     Types.isPlaying := true |}.

Definition typed_topic : App.State := App.setTopic "The history of Sushi" App.initial.

Definition good_browser : App.Browser :=
  browser (response_of [inline_part "iVBORw0KGgo="]) (response_of [inline_part "UklGRg=="]).

(** The state reached by [es] from the freshly mounted component with the
    topic typed in. *)
Definition after (es : list App.Event) : App.State :=
  (default (typed_topic, []) (App.run es (typed_topic, []))).1.

Definition log_after (es : list App.Event) : list GenAI.Request :=
  (default (typed_topic, []) (App.run es (typed_topic, []))).2.


(** An episode was generated, played from clock reading 1 and paused at 6;
    the [ended] event of the stopped source has not been dispatched. *)
Definition paused_at_5 : App.State :=
  after [App.Generate good_browser; App.Toggle 1; App.Toggle 6].

(** *** Further providers *)

(** A provider with the credential [key] that answers the [n]-th request
    with [answers n], and a decoder [atob]. *)
Definition scripted (key : option string)
    (answers : nat -> Result GenAI.GenerateContentResponse)
    (atob : string -> Result string) : App.Browser :=
  {| App.service :=
       {| GeminiService.API_KEY := key;
          GeminiService.generateContent := fun n _ => answers n;
          GeminiService.JSON_parse := fun _ => Ok sushi;
          GeminiService.atob := atob;
          GeminiService.decodeAudioData := fun bytes =>
            Ok {| WebAudio.duration := Z.of_nat (length bytes) |} |};
     App.new_AudioContext := Ok {| WebAudio.state := WebAudio.suspended |};
     App.Date_now := 1700000000000;
     App.audio_rejects_first := false |}.

(** The answers of a provider that serves the whole pipeline. *)
Definition good_answers (n : nat) : Result GenAI.GenerateContentResponse :=
  match n with
  | 0 => Ok {| GenAI.text := Some "{...}"; GenAI.candidates := None |}
  | 1 => Ok (response_of [inline_part "iVBORw0KGgo="])
  | _ => Ok (response_of [inline_part "UklGRg=="])
  end.

(** No credential. *)
Definition keyless : App.Browser := scripted None good_answers (fun s => Ok s).

(** Every request is rejected, with an empty message. *)
Definition offline : App.Browser :=
  scripted (Some "key") (fun _ => Throw (mkExn Js.OtherError EmptyString)) (fun s => Ok s).

(** The first speech request (the third request) is rejected. *)
Definition nova_rejected : App.Browser :=
  scripted (Some "key")
    (fun n => match n with
              | 2 => Throw (mkExn Js.OtherError "Voice Nova is not supported")
              | _ => good_answers n
              end)
    (fun s => Ok s).

(** [atob] refuses every payload. *)
Definition corrupt : App.Browser :=
  scripted (Some "key") good_answers
    (fun _ => Throw (mkExn Js.InvalidCharacterError
                       "The string to be decoded is not correctly encoded.")).

(** The browser has no [AudioContext] to construct. *)
Definition no_audio : App.Browser :=
  {| App.service := App.service good_browser;
     App.new_AudioContext :=
       Throw (mkExn Js.TypeError "AudioContextClass is not a constructor");
     App.Date_now := App.Date_now good_browser;
     App.audio_rejects_first := App.audio_rejects_first good_browser |}.

(** *** Further predicates *)

(** Every character of the text is white space. *)
Fixpoint all_white_space (s : string) : bool :=
  match s with
  | EmptyString => true
  | String c s' => Js.is_white_space c && all_white_space s'
  end.

(** [initAudio] has a context to work with: the ref holds one, or the
    constructor returns one. *)
Definition audio_ready (b : App.Browser) (st : App.State) : bool :=
  match App.audioContextRef st with
  | Some _ => true
  | None => Js.is_ok (App.new_AudioContext b)
  end.

(** A source node that is audible: started, not stopped, its [ended] event
    not dispatched. *)
Definition live (n : WebAudio.AudioBufferSourceNode) : bool :=
  match WebAudio.started n with
  | Some _ => negb (WebAudio.stopped n) && negb (WebAudio.ended n)
  | None => false
  end.

(** The redraw loop is armed: the one pending frame is the one whose handle
    is in [animationRef]. *)
Definition loop_armed (w : AudioVisualizer.World) : Prop :=
  AudioVisualizer.frames w = [AudioVisualizer.animationRef w].

(** [n'] is [n] with, at most, more outputs: what playback observes of a
    source node is unchanged and no connection was removed. *)
Definition only_more_outputs (n n' : WebAudio.AudioBufferSourceNode) : Prop :=
  WebAudio.buffer n' = WebAudio.buffer n /\
  WebAudio.started n' = WebAudio.started n /\
  WebAudio.stopped n' = WebAudio.stopped n /\
  WebAudio.onended n' = WebAudio.onended n /\
  WebAudio.ended n' = WebAudio.ended n /\
  (forall t, t ∈ WebAudio.outputs n -> t ∈ WebAudio.outputs n').

(** Node for node, the heap [h'] is the heap [h] with at most more outputs. *)
Definition graph_kept (h h' : WebAudio.Heap) : Prop :=
  length h' = length h /\
  forall r n, h !! r = Some n -> exists n', h' !! r = Some n' /\ only_more_outputs n n'.

(** The canvas of the component (lines 78-83) and a snapshot of 128 bins,
    all at level 200. *)
Definition component_canvas : AudioVisualizer.Canvas :=
  {| AudioVisualizer.width := 600; AudioVisualizer.height := 100;
     AudioVisualizer.context2d := true |}.

Definition loud_snapshot : list Z := repeat 200%Z 128.

(** The playing flag is set only with a live current source. *)
Definition flag_has_source (st : App.State) : Prop :=
  App.isPlaying st = true ->
  exists r n,
    App.sourceNodeRef st = Some r /\ App.nodes st !! r = Some n /\ live n = true.

(** The clock readings of the [Toggle] events of a run never go back, from
    the reading [t] on. *)
Fixpoint clock_ordered (t : Z) (es : list App.Event) : bool :=
  match es with
  | [] => true
  | App.Toggle t' :: es' => (t <=? t')%Z && clock_ordered t' es'
  | _ :: es' => clock_ordered t es'
  end.

End Spec.

(* ===================================================================== *)
(** * Properties of the playback controller *)
(* ===================================================================== *)

Section Playback.

Import App.

Lemma insert_fresh {A} (h : list A) (x y : A) : <[length h := x]> (h ++ [y]) = h ++ [x].
Proof.
  rewrite insert_app_r_alt by lia.
  replace (length h - length h) with 0 by lia. reflexivity.
Qed.

Lemma playable_inv st :
  Spec.playable st = true ->
  exists ep buf ctx,
    episode st = Some ep /\ Types.audioBuffer ep = Some buf /\ audioContextRef st = Some ctx.
Proof.
  unfold Spec.playable. intros H.
  destruct (episode st) as [ep|]; [|discriminate].
  destruct (Types.audioBuffer ep) as [buf|] eqn:Hb; [|discriminate].
  destruct (audioContextRef st) as [ctx|]; [|discriminate].
  eauto 6.
Qed.

(** The play branch, as one equation. *)
Lemma togglePlayback_play st t :
  Spec.playable st = true -> isPlaying st = false -> (0 <= pausedTimeRef st)%Z ->
  exists buf,
    (exists ep, episode st = Some ep /\ Types.audioBuffer ep = Some buf) /\
    togglePlayback t st =
      Ok (set_nodes (nodes st ++ [Spec.playing_node buf (pausedTimeRef st)])
            (setIsPlaying true
               (set_sourceNodeRef (Some (length (nodes st)))
                  (set_startTimeRef t st)))).
Proof.
  intros Hp Hplay Hoff.
  destruct (playable_inv st Hp) as (ep & buf & ctx & He & Hb & Hc).
  exists buf. split; [eauto|].
  unfold togglePlayback. rewrite He, Hb, Hc, Hplay. cbn.
  unfold WebAudio.start.
  destruct (Z.ltb_spec (pausedTimeRef st) 0) as [Hneg|_]; [lia|].
  cbn. rewrite insert_fresh. reflexivity.
Qed.

(** The pause branch, as one equation. *)
Lemma togglePlayback_pause st t r :
  Spec.playable st = true -> isPlaying st = true -> sourceNodeRef st = Some r ->
  togglePlayback t st =
    Ok (setIsPlaying false
          (set_pausedTimeRef (pausedTimeRef st + (t - startTimeRef st))%Z
             (set_nodes (WebAudio.stop_quietly r (nodes st)) st))).
Proof.
  intros Hp Hplay Hr.
  destruct (playable_inv st Hp) as (ep & buf & ctx & He & Hb & Hc).
  unfold togglePlayback. rewrite He, Hb, Hc, Hplay, Hr. reflexivity.
Qed.

Lemma stop_quietly_fresh h n :
  WebAudio.started n <> None ->
  WebAudio.stop_quietly (length h) (h ++ [n]) =
  h ++ [ {| WebAudio.buffer := WebAudio.buffer n; WebAudio.outputs := WebAudio.outputs n;
            WebAudio.started := WebAudio.started n; WebAudio.stopped := true;
            WebAudio.onended := WebAudio.onended n; WebAudio.ended := WebAudio.ended n |} ].
Proof.
  intros Hs. unfold WebAudio.stop_quietly.
  rewrite lookup_app_r by lia. replace (length h - length h) with 0 by lia.
  cbn. unfold WebAudio.stop. destruct (WebAudio.started n); [|congruence].
  cbn. apply insert_fresh.
Qed.

(** C8.  [togglePlayback] without an episode, without a decoded buffer in the
    episode, or without an audio context returns normally and leaves the whole
    state as it was: no node is created or stopped, and the playing flag, the
    paused offset and the segment start time keep their values. *)
Theorem togglePlayback_noop_without_buffer (st : State) (t : Z) :
  (episode st = None
   \/ (exists ep, episode st = Some ep /\ Types.audioBuffer ep = None)
   \/ audioContextRef st = None) ->
  togglePlayback t st = Ok st.
Proof.
  unfold togglePlayback.
  intros [He | [(ep & He & Hb) | Hc]].
  - rewrite He. reflexivity.
  - rewrite He, Hb. reflexivity.
  - rewrite Hc.
    destruct (episode st) as [ep|]; [|reflexivity].
    destruct (Types.audioBuffer ep); reflexivity.
Qed.

Lemma togglePlayback_noop_without_buffer_witness :
  togglePlayback 5 initial = Ok initial.
Proof.
  apply (togglePlayback_noop_without_buffer initial 5). left. reflexivity.
Defined.

(** C1.  Play at [t1], pause at [t2]: when the second call returns the paused
    offset is the old offset plus [t2 - t1].  The pause called [stop()] on
    the source, so the browser may dispatch [ended] to it, and the closure
    in [onended] then sets the offset to zero: the value does not persist. *)
Theorem pause_offset_reset_by_ended (st : State) (log : list GenAI.Request) (t1 t2 : Z) :
  Spec.playable st = true -> isPlaying st = false -> (0 <= pausedTimeRef st)%Z ->
  exists s2 s3,
    run [Toggle t1; Toggle t2] (st, log) = Some (s2, log) /\
    isPlaying s2 = false /\
    pausedTimeRef s2 = (pausedTimeRef st + (t2 - t1))%Z /\
    run [Ended WebAudio.StopCalled (length (nodes st))] (s2, log) = Some (s3, log) /\
    isPlaying s3 = false /\
    pausedTimeRef s3 = 0%Z.
Proof.
  intros Hp Hplay Hoff.
  destruct (togglePlayback_play st t1 Hp Hplay Hoff) as (buf & _ & E1).
  set (s1 := set_nodes (nodes st ++ [Spec.playing_node buf (pausedTimeRef st)])
               (setIsPlaying true
                  (set_sourceNodeRef (Some (length (nodes st)))
                     (set_startTimeRef t1 st)))) in E1.
  assert (Hp1 : Spec.playable s1 = true) by exact Hp.
  pose proof (togglePlayback_pause s1 t2 (length (nodes st)) Hp1 eq_refl eq_refl) as E2.
  cbn [run step fst snd mbind option_bind].
  rewrite E1. cbn [mbind option_bind fst snd]. rewrite E2.
  eexists. eexists. split; [reflexivity|].
  split; [reflexivity|]. split; [reflexivity|].
  cbn [fst snd]. unfold dispatch_ended. subst s1. cbn [nodes set_nodes setIsPlaying set_pausedTimeRef].
  rewrite stop_quietly_fresh by discriminate.
  rewrite lookup_app_r by lia. replace (length (nodes st) - length (nodes st)) with 0 by lia.
  cbn. auto.
Qed.

(** At a paused episode with offset 0: play at 1, pause at 3 gives offset 2,
    and the [ended] event of the stopped source puts it back to 0. *)
Lemma pause_offset_reset_by_ended_witness :
  let ep := {| Types.id := "1";
               Types.script := {| Types.title := "t"; Types.topic := "s";
                                  Types.dialogue := [] |};
               Types.coverImageBase64 := Some "x";
               Types.audioBuffer := Some {| WebAudio.duration := 100 |} |} in
  let st := setEpisode (Some ep)
              (set_audioContextRef (Some {| WebAudio.state := WebAudio.running |}) initial) in
  exists s2 s3,
    run [Toggle 1; Toggle 3] (st, []) = Some (s2, []) /\
    isPlaying s2 = false /\
    pausedTimeRef s2 = (0 + (3 - 1))%Z /\
    run [Ended WebAudio.StopCalled 0] (s2, []) = Some (s3, []) /\
    isPlaying s3 = false /\
    pausedTimeRef s3 = 0%Z.
Proof.
  intros ep st.
  apply (pause_offset_reset_by_ended st [] 1 3); [reflexivity | reflexivity | cbn; lia].
Defined.

(** X1.  Play at [t1], then pause at [t2] before any [ended] event: the
    second call stops the source, clears the playing flag and leaves the
    paused offset, within timer resolution, at the old offset plus the time
    played; the segment start time stays [t1].  Within timer resolution:
    line 86 computes [offset + (t2 - t1)] in doubles, each of the two
    operations rounding; clock readings and offsets are exact numbers here,
    and the sum is stated exactly for them.  With [t1 <= t2] the offset does
    not decrease, which no rounding changes. *)
Theorem pause_adds_elapsed_segment (st : State) (t1 t2 : Z) :
  Spec.playable st = true -> isPlaying st = false -> (0 <= pausedTimeRef st)%Z ->
  exists s1 s2 n,
    togglePlayback t1 st = Ok s1 /\
    isPlaying s1 = true /\ startTimeRef s1 = t1 /\
    pausedTimeRef s1 = pausedTimeRef st /\
    togglePlayback t2 s1 = Ok s2 /\
    isPlaying s2 = false /\ startTimeRef s2 = t1 /\
    pausedTimeRef s2 = (pausedTimeRef st + (t2 - t1))%Z /\
    ((t1 <= t2)%Z -> (pausedTimeRef st <= pausedTimeRef s2)%Z) /\
    nodes s2 !! length (nodes st) = Some n /\
    WebAudio.stopped n = true /\ WebAudio.started n = Some (pausedTimeRef st).
Proof.
  intros Hp Hplay Hoff.
  destruct (togglePlayback_play st t1 Hp Hplay Hoff) as (buf & _ & E1).
  set (s1 := set_nodes _ _) in E1.
  assert (Hp1 : Spec.playable s1 = true) by exact Hp.
  pose proof (togglePlayback_pause s1 t2 (length (nodes st)) Hp1 eq_refl eq_refl) as E2.
  eexists. eexists. eexists.
  split; [exact E1|]. split; [reflexivity|]. split; [reflexivity|]. split; [reflexivity|].
  split; [exact E2|]. split; [reflexivity|]. split; [reflexivity|]. split; [reflexivity|].
  split; [cbn; lia|].
  subst s1. cbn [nodes set_nodes setIsPlaying set_pausedTimeRef].
  rewrite stop_quietly_fresh by discriminate.
  rewrite lookup_app_r by lia. replace (length (nodes st) - length (nodes st)) with 0 by lia.
  cbn. auto.
Qed.

Lemma pause_adds_elapsed_segment_witness :
  exists s1 s2 n,
    togglePlayback 1 (Spec.after [Generate Spec.good_browser]) = Ok s1 /\
    isPlaying s1 = true /\ startTimeRef s1 = 1%Z /\
    pausedTimeRef s1 = 0%Z /\
    togglePlayback 6 s1 = Ok s2 /\
    isPlaying s2 = false /\ startTimeRef s2 = 1%Z /\
    pausedTimeRef s2 = 5%Z /\
    (0 <= pausedTimeRef s2)%Z /\
    nodes s2 !! 0 = Some n /\
    WebAudio.stopped n = true /\ WebAudio.started n = Some 0%Z.
Proof.
  destruct (pause_adds_elapsed_segment (Spec.after [Generate Spec.good_browser]) 1 6
              eq_refl eq_refl ltac:(vm_compute; discriminate))
    as (s1 & s2 & n & H1 & H2 & H3 & H4 & H5 & H6 & H7 & H8 & H9 & H10 & H11 & H12).
  exists s1, s2, n.
  split; [exact H1|]. split; [exact H2|]. split; [exact H3|]. split; [exact H4|].
  split; [exact H5|]. split; [exact H6|]. split; [exact H7|]. split; [exact H8|].
  split; [exact (H9 ltac:(discriminate))|]. split; [exact H10|].
  split; [exact H11|exact H12].
Defined.

End Playback.

(* ===================================================================== *)
(** * Properties of the three stages *)
(* ===================================================================== *)

Section Stages.

Import GeminiService.

Ltac run_service :=
  unfold generateScript, generateCoverArt, generateAudio, getAiClient,
    mbind, Service_bind, bind, ask, throw, ret, send, lift.

Lemma lookup_map {A B} (f : A -> B) (l : list A) (i : nat) :
  map f l !! i = f <$> (l !! i).
Proof.
  revert i. induction l as [|x l IH]; intros [|i]; cbn; auto.
Qed.

(** The script stage on an answer without text. *)
Lemma generateScript_no_text topic env log r :
  Js.truthy (API_KEY env) = true ->
  generateContent env (length log) (scriptRequest (scriptPrompt topic)) = Ok r ->
  Js.truthy (GenAI.text r) = false ->
  generateScript topic env log =
    (Throw (mkExn Js.Error "No script generated"),
     log ++ [scriptRequest (scriptPrompt topic)]).
Proof.
  intros Hk Hr Ht. run_service. rewrite Hk. cbn. rewrite Hr, Ht. reflexivity.
Qed.

(** The image stage when its scan ends without a payload. *)
Lemma generateCoverArt_no_payload title topic env log r d :
  Js.truthy (API_KEY env) = true ->
  generateContent env (length log) (coverArtRequest (coverPrompt title topic)) = Ok r ->
  extractImage r = Ok d -> Js.truthy d = false ->
  generateCoverArt title topic env log =
    (Throw (mkExn Js.Error "No image generated"),
     log ++ [coverArtRequest (coverPrompt title topic)]).
Proof.
  intros Hk Hr He Hd. run_service. rewrite Hk. cbn. rewrite Hr, He, Hd. reflexivity.
Qed.

(** The audio stage when the first part of the first candidate of the second
    answer carries no payload. *)
Lemma generateAudio_no_payload script ctx env log r1 r2 :
  Js.truthy (API_KEY env) = true ->
  generateContent env (length log) (ttsRequest (audioPrompt script) "Nova") = Ok r1 ->
  generateContent env (S (length log)) (ttsRequest (audioPrompt script) "Kore") = Ok r2 ->
  Js.truthy (firstInlineData r2) = false ->
  generateAudio script ctx env log =
    (Throw (mkExn Js.Error "No audio generated"),
     log ++ [ttsRequest (audioPrompt script) "Nova";
             ttsRequest (audioPrompt script) "Kore"]).
Proof.
  intros Hk Hr1 Hr2 Hd. run_service. rewrite Hk. cbn. rewrite Hr1.
  rewrite length_app. cbn [length]. replace (length log + 1) with (S (length log)) by lia.
  rewrite Hr2. unfold extractAudio. rewrite Hd. cbn. rewrite <- app_assoc. reflexivity.
Qed.

(** C5.  The image stage does not raise its own condition on every answer
    without an image: the guard at line 118 reads
    [response.candidates[0].content.parts] unguarded, so a candidate list
    that is empty, or whose first candidate has no [content], ends the stage
    with a [TypeError] and not with "No image generated". *)
Theorem image_stage_type_error
    (title topic : string) (env : Env) (log : list GenAI.Request)
    (r : GenAI.GenerateContentResponse) :
  Js.truthy (API_KEY env) = true ->
  generateContent env (length log) (coverArtRequest (coverPrompt title topic)) = Ok r ->
  Spec.no_first_content r = true ->
  exists e,
    generateCoverArt title topic env log =
      (Throw e, log ++ [coverArtRequest (coverPrompt title topic)]) /\
    Js.name e = Js.TypeError /\
    Js.message e <> "No image generated".
Proof.
  intros Hk Hr Hc. run_service. rewrite Hk. cbn. rewrite Hr.
  unfold Spec.no_first_content in Hc. unfold extractImage.
  destruct (GenAI.candidates r) as [[|c cs]|]; [| |discriminate].
  - eexists. split; [reflexivity|]. split; [reflexivity|]. discriminate.
  - destruct (GenAI.content c); [discriminate|].
    eexists. split; [reflexivity|]. split; [reflexivity|]. discriminate.
Qed.

(** The provider answers the image request with one candidate that has no
    content (a blocked generation). *)
Lemma image_stage_type_error_witness :
  let blocked := {| GenAI.text := None;
                    GenAI.candidates := Some [ {| GenAI.content := None |} ] |} in
  let env := Spec.provider blocked Spec.empty_response in
  let log := [scriptRequest (scriptPrompt "The history of Sushi")] in
  exists e,
    generateCoverArt "Rolling Through Time" "The history of Sushi" env log =
      (Throw e, log ++ [coverArtRequest
                          (coverPrompt "Rolling Through Time" "The history of Sushi")]) /\
    Js.name e = Js.TypeError /\
    Js.message e <> "No image generated".
Proof.
  intros blocked env log.
  apply (image_stage_type_error "Rolling Through Time" "The history of Sushi" env log blocked);
    reflexivity.
Defined.

(** The loop of the image stage passes over parts without [inlineData] and
    takes the first part that has one. *)
Lemma scanParts_skips pre blob rest base64Data :
  Forall (fun p => GenAI.inlineData p = None) pre ->
  scanParts (pre ++ {| GenAI.inlineData := Some blob |} :: rest) base64Data = GenAI.data blob.
Proof.
  induction 1 as [|p pre Hp _ IH]; cbn; [reflexivity|].
  rewrite Hp. exact IH.
Qed.

(** C10.  The audio stage reads the first part of the first candidate only.
    When that part carries no payload the stage raises "No audio generated",
    whatever the other parts of that candidate and the other candidates
    hold; the loop of the image stage, on the same parts, reaches a payload
    behind parts that have none. *)
Theorem audio_reads_first_part_only
    (script : Types.PodcastScript) (ctx : WebAudio.AudioContext) (env : Env)
    (log : list GenAI.Request) (r1 : GenAI.GenerateContentResponse)
    (txt : option string) (p0 : GenAI.Part) (ps : list GenAI.Part)
    (cs : list GenAI.Candidate) :
  Js.truthy (API_KEY env) = true ->
  generateContent env (length log) (ttsRequest (audioPrompt script) "Nova") = Ok r1 ->
  generateContent env (S (length log)) (ttsRequest (audioPrompt script) "Kore") =
    Ok {| GenAI.text := txt;
          GenAI.candidates :=
            Some ({| GenAI.content := Some {| GenAI.parts := Some (p0 :: ps) |} |} :: cs) |} ->
  Js.truthy (GenAI.inlineData p0 ≫= GenAI.data) = false ->
  generateAudio script ctx env log =
    (Throw (mkExn Js.Error "No audio generated"),
     log ++ [ttsRequest (audioPrompt script) "Nova";
             ttsRequest (audioPrompt script) "Kore"]) /\
  (forall pre blob rest,
     Forall (fun p => GenAI.inlineData p = None) pre ->
     extractImage
       {| GenAI.text := txt;
          GenAI.candidates :=
            Some ({| GenAI.content :=
                       Some {| GenAI.parts :=
                                 Some (pre ++ {| GenAI.inlineData := Some blob |} :: rest) |} |}
                  :: cs) |}
     = Ok (GenAI.data blob)).
Proof.
  intros Hk Hr1 Hr2 Hp0. split.
  - eapply generateAudio_no_payload; eauto.
  - intros pre blob rest Hpre. unfold extractImage.
    cbn [GenAI.candidates GenAI.content GenAI.parts].
    rewrite scanParts_skips by exact Hpre. reflexivity.
Qed.

(** The second speech answer carries its payload in the second part. *)
Lemma audio_reads_first_part_only_witness :
  let speech := Spec.response_of [Spec.text_part; Spec.inline_part "UklGRg=="] in
  let env := Spec.provider Spec.empty_response speech in
  let log := [scriptRequest "s"; coverArtRequest "c"] in
  generateAudio Spec.sushi {| WebAudio.state := WebAudio.running |} env log =
    (Throw (mkExn Js.Error "No audio generated"),
     log ++ [ttsRequest (audioPrompt Spec.sushi) "Nova";
             ttsRequest (audioPrompt Spec.sushi) "Kore"]) /\
  (forall pre blob rest,
     Forall (fun p => GenAI.inlineData p = None) pre ->
     extractImage
       {| GenAI.text := None;
          GenAI.candidates :=
            Some ({| GenAI.content :=
                       Some {| GenAI.parts :=
                                 Some (pre ++ {| GenAI.inlineData := Some blob |} :: rest) |} |}
                  :: []) |}
     = Ok (GenAI.data blob)).
Proof.
  intros speech env log.
  apply (audio_reads_first_part_only Spec.sushi {| WebAudio.state := WebAudio.running |}
           env log (Spec.response_of [Spec.inline_part "UklGRg=="]) None
           Spec.text_part [Spec.inline_part "UklGRg=="] []); reflexivity.
Defined.

Lemma scanParts_no_payload parts :
  Forall (fun p => Spec.has_payload p = false) parts ->
  Js.truthy (scanParts parts (Some EmptyString)) = false.
Proof.
  induction 1 as [|p parts Hp _ IH]; cbn; [reflexivity|].
  unfold Spec.has_payload in Hp.
  destruct (GenAI.inlineData p) as [blob|]; [exact Hp | exact IH].
Qed.

Lemma extractImage_no_payload r :
  Spec.no_first_content r = false ->
  Forall (fun p => Spec.has_payload p = false) (Spec.first_parts r) ->
  exists d, extractImage r = Ok d /\ Js.truthy d = false.
Proof.
  unfold Spec.no_first_content, Spec.first_parts, extractImage.
  destruct (GenAI.candidates r) as [[|c cs]|]; cbn; [discriminate| |eauto].
  destruct (GenAI.content c) as [ct|]; cbn; [|discriminate].
  intros _ Hparts.
  destruct (GenAI.parts ct) as [parts|]; cbn in *; [|eauto].
  eexists. split; [reflexivity|]. apply scanParts_no_payload, Hparts.
Qed.

(** X2.  With a credential: the script stage on an answer without text
    raises "No script generated"; the image stage, on an answer whose guard
    can be read (no candidate list, or a first candidate with content) and
    whose first candidate has no part with a payload, raises "No image
    generated"; the audio stage, on a second answer with no payload in the
    first part of the first candidate, raises "No audio generated".  No stage
    returns a value, and the three messages differ. *)
Theorem each_stage_raises_its_own_condition (env : Env) (log : list GenAI.Request) :
  Js.truthy (API_KEY env) = true ->
  (forall topic r,
     generateContent env (length log) (scriptRequest (scriptPrompt topic)) = Ok r ->
     Js.truthy (GenAI.text r) = false ->
     generateScript topic env log =
       (Throw (mkExn Js.Error "No script generated"),
        log ++ [scriptRequest (scriptPrompt topic)])) /\
  (forall title topic r,
     generateContent env (length log) (coverArtRequest (coverPrompt title topic)) = Ok r ->
     Spec.no_first_content r = false ->
     Forall (fun p => Spec.has_payload p = false) (Spec.first_parts r) ->
     generateCoverArt title topic env log =
       (Throw (mkExn Js.Error "No image generated"),
        log ++ [coverArtRequest (coverPrompt title topic)])) /\
  (forall script ctx r1 r2,
     generateContent env (length log) (ttsRequest (audioPrompt script) "Nova") = Ok r1 ->
     generateContent env (S (length log)) (ttsRequest (audioPrompt script) "Kore") = Ok r2 ->
     match Spec.first_parts r2 with
     | p :: _ => Spec.has_payload p = false
     | [] => True
     end ->
     generateAudio script ctx env log =
       (Throw (mkExn Js.Error "No audio generated"),
        log ++ [ttsRequest (audioPrompt script) "Nova";
                ttsRequest (audioPrompt script) "Kore"])) /\
  ("No script generated" <> "No image generated" /\
   "No script generated" <> "No audio generated" /\
   "No image generated" <> "No audio generated").
Proof.
  intros Hk. split; [|split; [|split]].
  - intros topic r Hr Ht. exact (generateScript_no_text topic env log r Hk Hr Ht).
  - intros title topic r Hr Hg Hparts.
    destruct (extractImage_no_payload r Hg Hparts) as (d & He & Hd).
    exact (generateCoverArt_no_payload title topic env log r d Hk Hr He Hd).
  - intros script ctx r1 r2 Hr1 Hr2 Hfirst.
    apply (generateAudio_no_payload script ctx env log r1 r2 Hk Hr1 Hr2).
    revert Hfirst. unfold Spec.first_parts, Spec.has_payload, firstInlineData.
    destruct (GenAI.candidates r2) as [[|c cs]|]; cbn; try reflexivity.
    destruct (GenAI.content c) as [ct|]; cbn; try reflexivity.
    destruct (GenAI.parts ct) as [[|p ps]|]; cbn; try reflexivity.
    auto.
  - repeat split; discriminate.
Qed.

Lemma each_stage_raises_its_own_condition_witness :
  generateScript "The history of Sushi" Spec.silent_provider [] =
    (Throw (mkExn Js.Error "No script generated"),
     [] ++ [scriptRequest (scriptPrompt "The history of Sushi")]) /\
  generateCoverArt "Rolling Through Time" "The history of Sushi" Spec.silent_provider [] =
    (Throw (mkExn Js.Error "No image generated"),
     [] ++ [coverArtRequest (coverPrompt "Rolling Through Time" "The history of Sushi")]) /\
  generateAudio Spec.sushi {| WebAudio.state := WebAudio.running |} Spec.silent_provider [] =
    (Throw (mkExn Js.Error "No audio generated"),
     [] ++ [ttsRequest (audioPrompt Spec.sushi) "Nova";
            ttsRequest (audioPrompt Spec.sushi) "Kore"]).
Proof.
  destruct (each_stage_raises_its_own_condition Spec.silent_provider [] eq_refl)
    as (Hs & Hi & Ha & _).
  split; [|split].
  - exact (Hs _ Spec.empty_response eq_refl eq_refl).
  - exact (Hi _ _ Spec.empty_response eq_refl eq_refl (Forall_nil_2 _)).
  - exact (Ha _ _ Spec.empty_response Spec.empty_response eq_refl eq_refl I).
Defined.

Lemma split_lines_not_nil s : Spec.split_lines s <> [].
Proof.
  induction s as [|c s IH]; cbn; [discriminate|].
  destruct (Spec.split_lines s); [contradiction|].
  destruct (Spec.is_line_feed c); discriminate.
Qed.

Lemma split_lines_line s : Spec.no_line_feed s = true -> Spec.split_lines s = [s].
Proof.
  induction s as [|c s IH]; cbn; [reflexivity|].
  intros [Hc Hs]%andb_prop. rewrite (IH Hs).
  destruct (Spec.is_line_feed c); [discriminate|reflexivity].
Qed.

Lemma split_lines_cons x rest :
  Spec.no_line_feed x = true ->
  Spec.split_lines (x +:+ Js.newline +:+ rest) = x :: Spec.split_lines rest.
Proof.
  induction x as [|c x IH].
  - intros _.
    change (match Spec.split_lines rest with
            | l :: ls => EmptyString :: l :: ls
            | [] => []
            end = EmptyString :: Spec.split_lines rest).
    destruct (Spec.split_lines rest) eqn:E; [|reflexivity].
    destruct (split_lines_not_nil rest E).
  - intros H. cbn [Spec.no_line_feed] in H. apply andb_prop in H as [Hc Hx].
    change (String c x +:+ Js.newline +:+ rest)
      with (String c (x +:+ Js.newline +:+ rest)).
    cbn [Spec.split_lines]. rewrite (IH Hx).
    destruct (Spec.is_line_feed c); [discriminate|reflexivity].
Qed.

Lemma no_line_feed_app a b :
  Spec.no_line_feed (a +:+ b) = Spec.no_line_feed a && Spec.no_line_feed b.
Proof.
  induction a as [|c a IH]; [reflexivity|].
  change (String c a +:+ b) with (String c (a +:+ b)).
  cbn [Spec.no_line_feed]. rewrite IH. apply andb_assoc.
Qed.

Lemma split_lines_join xs :
  xs <> [] -> Forall (fun x => Spec.no_line_feed x = true) xs ->
  Spec.split_lines (Js.join Js.newline xs) = xs.
Proof.
  intros Hne Hall. induction Hall as [|x xs Hx Hxs IH]; [contradiction|].
  destruct xs as [|y ys].
  - cbn. apply split_lines_line, Hx.
  - change (Js.join Js.newline (x :: y :: ys))
      with (x +:+ Js.newline +:+ Js.join Js.newline (y :: ys)).
    rewrite split_lines_cons by exact Hx.
    rewrite IH by discriminate. reflexivity.
Qed.

(** X3.  When the script has an entry and no text holds a line feed, the
    lines of the speech prompt's dialogue are the rendered entries: as many
    lines as entries, the [i]-th line being the [i]-th entry's
    [speaker: text]. *)
Theorem prompt_lines_are_the_entries (script : Types.PodcastScript) :
  Types.dialogue script <> [] ->
  Forall (fun line => Spec.no_line_feed (Types.text line) = true) (Types.dialogue script) ->
  Spec.split_lines (scriptText script) = map renderLine (Types.dialogue script) /\
  length (Spec.split_lines (scriptText script)) = length (Types.dialogue script).
Proof.
  intros Hne Hall.
  assert (E : Spec.split_lines (scriptText script) = map renderLine (Types.dialogue script)).
  { unfold scriptText. apply split_lines_join.
    - destruct (Types.dialogue script); [contradiction|discriminate].
    - apply Forall_map. eapply Forall_impl; [exact Hall|].
      intros line Hl. cbn. unfold renderLine. rewrite !no_line_feed_app, Hl.
      destruct (Types.speaker line); reflexivity. }
  split; [exact E|]. rewrite E. apply length_map.
Qed.

Lemma prompt_lines_are_the_entries_witness :
  Spec.split_lines (scriptText Spec.sushi) = map renderLine (Types.dialogue Spec.sushi) /\
  length (Spec.split_lines (scriptText Spec.sushi)) = length (Types.dialogue Spec.sushi).
Proof.
  apply (prompt_lines_are_the_entries Spec.sushi); [discriminate|].
  repeat constructor.
Defined.

(** The requests the audio stage has sent when it settles. *)
Lemma generateAudio_sent script ctx env log :
  Js.truthy (API_KEY env) = true ->
  (generateAudio script ctx env log).2 = log ++ [ttsRequest (audioPrompt script) "Nova"] \/
  (generateAudio script ctx env log).2 =
    log ++ [ttsRequest (audioPrompt script) "Nova"; ttsRequest (audioPrompt script) "Kore"].
Proof.
  intros Hk. run_service. rewrite Hk. cbn.
  destruct (generateContent env (length log) _) as [r1|e1]; cbn; [|left; reflexivity].
  right. destruct (generateContent env _ _) as [r2|e2]; cbn;
    [|rewrite <- app_assoc; reflexivity].
  destruct (extractAudio r2) as [|c payload]; cbn; [rewrite <- app_assoc; reflexivity|].
  destruct (atob env _) as [bin|e]; cbn; rewrite <- app_assoc; reflexivity.
Qed.

Lemma generateAudio_unsent script ctx env log :
  Js.truthy (API_KEY env) = false -> (generateAudio script ctx env log).2 = log.
Proof.
  intros Hk. run_service. rewrite Hk. reflexivity.
Qed.

(** C9 (as amended).  The audio stage sends one or two requests when there
    is a credential and none when there is not, and the text of each request
    sent is the fixed instruction, two line feeds,
    and the dialogue entries rendered as [speaker: text], in order, joined
    by single line feeds: one rendered entry per dialogue entry.  An empty
    dialogue gives an empty dialogue text; when the dialogue is not empty and
    no text holds a line feed, the lines of the dialogue text are exactly the
    rendered entries, one line per entry.  The transcript holds one turn per
    dialogue entry, in order, showing that entry's speaker and text. *)
Theorem speech_prompt_renders_each_entry
    (script : Types.PodcastScript) (ctx : WebAudio.AudioContext)
    (env : Env) (log : list GenAI.Request) :
  let rendered :=
    map (fun line =>
           Types.Speaker_to_string (Types.speaker line) +:+ ": " +:+ Types.text line)
        (Types.dialogue script) in
  let dialogue_text := String.concat (String (ascii_of_nat 10) EmptyString) rendered in
  let sent := drop (length log) (generateAudio script ctx env log).2 in
  ((Js.truthy (API_KEY env) = true -> 1 <= length sent <= 2) /\
   (Js.truthy (API_KEY env) = false -> sent = []) /\
   Forall (fun req =>
             GenAI.model req = "gemini-2.5-flash-preview-tts" /\
             GenAI.contents req =
               "Read the following dialogue exactly as written, assigning the voices to the correct speakers."
               +:+ String (ascii_of_nat 10) (String (ascii_of_nat 10) EmptyString)
               +:+ dialogue_text) sent) /\
  length rendered = length (Types.dialogue script) /\
  (Types.dialogue script = [] -> dialogue_text = EmptyString) /\
  (Types.dialogue script <> [] ->
   Forall (fun line => Spec.no_line_feed (Types.text line) = true) (Types.dialogue script) ->
   Spec.split_lines dialogue_text = rendered /\
   length (Spec.split_lines dialogue_text) = length (Types.dialogue script)) /\
  (forall st ep,
     App.episode st = Some ep -> Types.script ep = script ->
     exists turns,
       App.renderScript st = Some turns /\
       length turns = length (Types.dialogue script) /\
       forall i line,
         Types.dialogue script !! i = Some line ->
         exists turn,
           turns !! i = Some turn /\
           App.key turn = i /\
           App.label turn = Types.Speaker_to_string (Types.speaker line) /\
           App.body turn = Types.text line).
Proof.
  intros rendered dialogue_text sent.
  split.
  { subst sent. destruct (Js.truthy (API_KEY env)) eqn:Hk.
    - destruct (generateAudio_sent script ctx env log Hk) as [-> | ->];
        rewrite drop_app_length; cbn;
        (split; [intros _; lia|]); (split; [discriminate|]); repeat constructor.
    - rewrite (generateAudio_unsent script ctx env log Hk), drop_all.
      split; [discriminate|]. split; [reflexivity|]. constructor. }
  split; [apply length_map|].
  split; [intros Hnil; subst dialogue_text rendered; rewrite Hnil; reflexivity|].
  split.
  { intros Hne Hall.
    assert (E : Spec.split_lines dialogue_text = rendered).
    { subst dialogue_text. apply (split_lines_join rendered).
      - subst rendered. destruct (Types.dialogue script); [contradiction|discriminate].
      - subst rendered. apply Forall_map. eapply Forall_impl; [exact Hall|].
        intros line Hl. cbn. rewrite !no_line_feed_app, Hl.
        destruct (Types.speaker line); reflexivity. }
    split; [exact E|]. rewrite E. apply length_map. }
  intros st ep He <-. unfold App.renderScript. rewrite He.
  eexists. split; [reflexivity|]. split; [apply length_imap|].
  intros i line Hl. rewrite list_lookup_imap, Hl. cbn. eauto.
Qed.

(** The script of the fixture: three entries, three lines in each of the two
    requests sent, three turns in the transcript of the generated episode. *)
Lemma speech_prompt_renders_each_entry_witness :
  let dialogue_text :=
    "Host: Welcome to the show!" +:+ Js.newline +:+
    "Guest: Where did sushi begin?" +:+ Js.newline +:+
    "Host: As a way to keep fish." in
  map GenAI.contents
    (generateAudio Spec.sushi {| WebAudio.state := WebAudio.running |}
       Spec.silent_provider []).2 =
    repeat ("Read the following dialogue exactly as written, assigning the voices to the correct speakers."
            +:+ Js.newline +:+ Js.newline +:+ dialogue_text) 2 /\
  length (Spec.split_lines dialogue_text) = 3 /\
  exists turns,
    App.renderScript (Spec.after [App.Generate Spec.good_browser]) = Some turns /\
    length turns = 3 /\
    exists turn,
      turns !! 1 = Some turn /\ App.key turn = 1 /\
      App.label turn = "Guest" /\ App.body turn = "Where did sushi begin?".
Proof.
  intros dialogue_text.
  destruct (speech_prompt_renders_each_entry Spec.sushi
              {| WebAudio.state := WebAudio.running |} Spec.silent_provider [])
    as (_ & _ & _ & Hlines & Hturns).
  split; [reflexivity|]. split.
  - destruct (Hlines ltac:(discriminate) ltac:(repeat constructor)) as (_ & Hlen).
    exact Hlen.
  - destruct (Hturns (Spec.after [App.Generate Spec.good_browser])
                (default {| Types.id := EmptyString; Types.script := Spec.sushi;
                            Types.coverImageBase64 := None; Types.audioBuffer := None |}
                   (App.episode (Spec.after [App.Generate Spec.good_browser])))
                eq_refl eq_refl) as (turns & Hr & Hl & Hi).
    exists turns. split; [exact Hr|]. split; [exact Hl|].
    exact (Hi 1 _ eq_refl).
Defined.

(** One dialogue entry whose text holds a line feed: the text sent has two
    lines for that one entry. *)
Lemma speech_prompt_line_count_counterexample :
  let script :=
    {| Types.title := "t"; Types.topic := "s";
       Types.dialogue :=
         [ {| Types.speaker := Types.Host;
              Types.text := "a" +:+ Js.newline +:+ "b" |} ] |} in
  let dialogue_text := "Host: a" +:+ Js.newline +:+ "b" in
  map GenAI.contents
    (generateAudio script {| WebAudio.state := WebAudio.running |}
       Spec.silent_provider []).2 =
    repeat ("Read the following dialogue exactly as written, assigning the voices to the correct speakers."
            +:+ Js.newline +:+ Js.newline +:+ dialogue_text) 2 /\
  Spec.split_lines dialogue_text = ["Host: a"; "b"] /\
  length (Spec.split_lines dialogue_text) <> length (Types.dialogue script).
Proof.
  intros script dialogue_text.
  split; [reflexivity|]. split; [reflexivity|]. vm_compute. discriminate.
Qed.

End Stages.

(* ===================================================================== *)
(** * Properties of the generation pipeline *)
(* ===================================================================== *)

Section Generation.

Import App.

Lemma initAudio_ok b st st' :
  initAudio b st = Ok st' -> exists ctx, st' = set_audioContextRef (Some ctx) st.
Proof.
  unfold initAudio. destruct st as [tp ls ep pl er [ctx|] sr stt pt nd]; cbn.
  - destruct (WebAudio.state ctx) eqn:Hs; intros [= <-]; eauto.
  - destruct (new_AudioContext b) as [ctx|e]; cbn; [|discriminate].
    destruct (WebAudio.state ctx) eqn:Hs; intros [= <-]; eauto.
Qed.

Lemma generateAudio_any_context script c1 c2 :
  GeminiService.generateAudio script c1 = GeminiService.generateAudio script c2.
Proof. reflexivity. Qed.

(** The [try] block, case by case. *)
Lemma generation_spec b st log st' r log' :
  generation b st log = (st', r, log') ->
  Spec.playback_frame st st' /\
  error st' = error st /\
  match r with
  | Ok _ =>
      loadingStage st' = Types.COMPLETE /\
      audioContextRef st' <> None /\
      exists script log1 cover log2 audio,
        GeminiService.generateScript (topic st) (service b) log = (Ok script, log1) /\
        GeminiService.generateCoverArt (Types.title script) (Types.topic script)
          (service b) log1 = (Ok cover, log2) /\
        (forall ctx, GeminiService.generateAudio script ctx (service b) log2 = (Ok audio, log')) /\
        episode st' = Some {| Types.id := Js.toString (Date_now b);
                              Types.script := script;
                              Types.coverImageBase64 := Some cover;
                              Types.audioBuffer := Some audio |}
  | Throw _ => episode st' = episode st
  end.
Proof.
  unfold generation, Spec.playback_frame.
  destruct (initAudio b st) as [st1|e] eqn:Hi.
  2:{ intros [= <- <- <-]. auto 10. }
  destruct (initAudio_ok _ _ _ Hi) as [ctx ->]. cbn.
  destruct (GeminiService.generateScript (topic st) (service b) log) as [[script|e] log1] eqn:Hs.
  2:{ intros [= <- <- <-]. cbn. auto 10. }
  destruct (GeminiService.generateCoverArt _ _ (service b) log1) as [art log2] eqn:Ha.
  destruct (GeminiService.generateAudio script ctx (service b) log2) as [audio log3] eqn:Hd.
  destruct art as [cover|ea], audio as [buf|ed]; cbn.
  - intros [= <- <- <-]. cbn. repeat split; try discriminate.
    exists script, log1, cover, log2, buf. repeat split; auto.
  - intros [= <- <- <-]. cbn. auto 10.
  - intros [= <- <- <-]. cbn. auto 10.
  - destruct (audio_rejects_first b); intros [= <- <- <-]; cbn; auto 10.
Qed.

Lemma resetForGeneration_cleared st :
  episode (resetForGeneration st) = None /\
  error (resetForGeneration st) = None /\
  isPlaying (resetForGeneration st) = false /\
  pausedTimeRef (resetForGeneration st) = pausedTimeRef st /\
  startTimeRef (resetForGeneration st) = startTimeRef st /\
  sourceNodeRef (resetForGeneration st) = sourceNodeRef st /\
  topic (resetForGeneration st) = topic st /\
  nodes (resetForGeneration st) =
    match sourceNodeRef st with
    | Some r => WebAudio.stop_quietly r (nodes st)
    | None => nodes st
    end.
Proof.
  unfold resetForGeneration. cbn.
  destruct (sourceNodeRef st) eqn:E; repeat split; cbn; auto.
Qed.

Lemma or_else_not_empty m d : d <> EmptyString -> Js.or_else (Some m) d <> EmptyString.
Proof. intros Hd. destruct m; cbn; [exact Hd | discriminate]. Qed.

Ltac unfold_service :=
  unfold GeminiService.generateScript, GeminiService.generateCoverArt,
    GeminiService.generateAudio, GeminiService.getAiClient,
    mbind, GeminiService.Service_bind, GeminiService.bind, GeminiService.ask,
    GeminiService.throw, GeminiService.ret, GeminiService.send, GeminiService.lift in *.

(** A stage that resolves has issued its requests, in this order. *)
Lemma generateScript_ok_log topic env log script log1 :
  GeminiService.generateScript topic env log = (Ok script, log1) ->
  log1 = log ++ [GeminiService.scriptRequest (GeminiService.scriptPrompt topic)].
Proof.
  unfold_service.
  destruct (Js.truthy (GeminiService.API_KEY env)); cbn; try discriminate.
  destruct (GeminiService.generateContent env _ _) as [r|e]; cbn; try discriminate.
  destruct (Js.truthy (GenAI.text r)); cbn; try discriminate.
  intros [= _ <-]. reflexivity.
Qed.

Lemma generateCoverArt_ok_log title topic env log cover log1 :
  GeminiService.generateCoverArt title topic env log = (Ok cover, log1) ->
  log1 = log ++ [GeminiService.coverArtRequest (GeminiService.coverPrompt title topic)].
Proof.
  unfold_service.
  destruct (Js.truthy (GeminiService.API_KEY env)); cbn; try discriminate.
  destruct (GeminiService.generateContent env _ _) as [r|e]; cbn; try discriminate.
  destruct (GeminiService.extractImage r) as [d|e]; cbn; try discriminate.
  destruct (Js.truthy d); cbn; try discriminate.
  intros [= _ <-]. reflexivity.
Qed.

Lemma generateAudio_ok_log script ctx env log audio log1 :
  GeminiService.generateAudio script ctx env log = (Ok audio, log1) ->
  log1 = log ++ [GeminiService.ttsRequest (GeminiService.audioPrompt script) "Nova";
                 GeminiService.ttsRequest (GeminiService.audioPrompt script) "Kore"].
Proof.
  unfold_service.
  destruct (Js.truthy (GeminiService.API_KEY env)); cbn; try discriminate.
  destruct (GeminiService.generateContent env (length log) _) as [r|e]; cbn; try discriminate.
  destruct (GeminiService.generateContent env _ _) as [r2|e]; cbn; try discriminate.
  destruct (GeminiService.extractAudio r2) as [|c payload]; cbn; try discriminate.
  destruct (GeminiService.atob env _) as [bin|e]; cbn; try discriminate.
  intros [= _ <-]. rewrite <- app_assoc. reflexivity.
Qed.

Lemma handleGenerate_spec b st log :
  Spec.submits st = true ->
  exists st1 r log',
    generation b (resetForGeneration st) log = (st1, r, log') /\
    handleGenerate b st log =
      (match r with
       | Ok _ => st1
       | Throw err =>
           setLoadingStage Types.ERROR
             (setError (Some (Js.or_else (Some (Js.message err)) defaultMessage)) st1)
       end, log').
Proof.
  unfold Spec.submits, handleGenerate. intros ->. cbn [negb].
  destruct (generation b (resetForGeneration st) log) as [[st1 r] log'].
  exists st1, r, log'. split; [reflexivity|]. destruct r; reflexivity.
Qed.

(** C2.  A submitted generation in which the script stage, the art stage or
    the audio stage fails ends with the episode absent, a non-empty error
    message and the stage marker [ERROR]; whatever the other stages
    produced is dropped. *)
Theorem failed_stage_discards_episode (b : Browser) (st : State) (log : list GenAI.Request) :
  Spec.submits st = true ->
  Spec.script_fails b st log \/ Spec.art_fails b st log \/ Spec.audio_fails b st log ->
  episode (handleGenerate b st log).1 = None /\
  (exists msg, error (handleGenerate b st log).1 = Some msg /\ msg <> EmptyString) /\
  loadingStage (handleGenerate b st log).1 = Types.ERROR.
Proof.
  intros Hsub Hfail.
  destruct (handleGenerate_spec b st log Hsub) as (st1 & r & log' & Hg & ->).
  destruct (generation_spec _ _ _ _ _ _ Hg) as (Hframe & Herr & Hr).
  destruct (resetForGeneration_cleared st) as (Hep & _ & _ & _ & _ & _ & Htopic & _).
  destruct r as [u|err].
  - exfalso. destruct Hr as (_ & _ & script & log1 & cover & log2 & audio & Hs & Ha & Hd & _).
    rewrite Htopic in Hs.
    destruct Hfail as [(e & l1 & Hf) | [(sc & l1 & e & l2 & Hf1 & Hf2) | Hf]].
    + congruence.
    + rewrite Hs in Hf1. injection Hf1 as <- <-. congruence.
    + destruct Hf as (sc & l1 & art & l2 & ctx & e & l3 & Hf1 & Hf2 & Hf3).
      rewrite Hs in Hf1. injection Hf1 as <- <-.
      rewrite Ha in Hf2. injection Hf2 as <- <-.
      rewrite (Hd ctx) in Hf3. discriminate.
  - cbn. split; [congruence|]. split; [|reflexivity].
    eexists. split; [reflexivity|]. apply or_else_not_empty. discriminate.
Qed.

(** The art stage returns an image and the audio stage an empty payload: the
    audio stage fails, and nothing of the run is exposed. *)
Lemma failed_stage_discards_episode_witness :
  let b := Spec.browser (Spec.response_of [Spec.inline_part "iVBORw0KGgo="]) Spec.empty_response in
  episode (handleGenerate b Spec.typed_topic []).1 = None /\
  (exists msg, error (handleGenerate b Spec.typed_topic []).1 = Some msg /\ msg <> EmptyString) /\
  loadingStage (handleGenerate b Spec.typed_topic []).1 = Types.ERROR.
Proof.
  intros b.
  apply (failed_stage_discards_episode b Spec.typed_topic []); [reflexivity|].
  right; right. unfold Spec.audio_fails.
  exists Spec.sushi. eexists. eexists. eexists.
  exists {| WebAudio.state := WebAudio.running |}.
  eexists. eexists.
  split; [vm_compute; reflexivity|]. split; vm_compute; reflexivity.
Defined.

(** C3.  A generation that completes has issued four requests to the
    provider, in this order: the script request, the image request, and two
    speech requests that differ in the guest's voice only.  The answer to
    the first speech request is never read. *)
Theorem successful_generation_issues_four_requests
    (b : Browser) (st : State) (log : list GenAI.Request) :
  Spec.submits st = true ->
  loadingStage (handleGenerate b st log).1 = Types.COMPLETE ->
  exists script,
    (handleGenerate b st log).2 =
      log ++ [GeminiService.scriptRequest (GeminiService.scriptPrompt (topic st));
              GeminiService.coverArtRequest
                (GeminiService.coverPrompt (Types.title script) (Types.topic script));
              GeminiService.ttsRequest (GeminiService.audioPrompt script) "Nova";
              GeminiService.ttsRequest (GeminiService.audioPrompt script) "Kore"] /\
    length (handleGenerate b st log).2 = length log + 4.
Proof.
  intros Hsub Hdone.
  destruct (handleGenerate_spec b st log Hsub) as (st1 & r & log' & Hg & E).
  rewrite E in *. cbn [fst snd] in *.
  destruct (generation_spec _ _ _ _ _ _ Hg) as (_ & _ & Hr).
  destruct (resetForGeneration_cleared st) as (_ & _ & _ & _ & _ & _ & Htopic & _).
  destruct r as [u|err]; [|discriminate].
  destruct Hr as (_ & _ & script & log1 & cover & log2 & audio & Hs & Ha & Hd & _).
  rewrite Htopic in Hs.
  apply generateScript_ok_log in Hs. apply generateCoverArt_ok_log in Ha.
  specialize (Hd {| WebAudio.state := WebAudio.running |}).
  apply generateAudio_ok_log in Hd.
  exists script. subst log' log2 log1.
  rewrite <- !app_assoc. cbn [app]. split; [reflexivity|].
  rewrite length_app. reflexivity.
Qed.

Lemma successful_generation_issues_four_requests_witness :
  let b := Spec.browser (Spec.response_of [Spec.inline_part "iVBORw0KGgo="])
                        (Spec.response_of [Spec.inline_part "UklGRg=="]) in
  exists script,
    (handleGenerate b Spec.typed_topic []).2 =
      [] ++ [GeminiService.scriptRequest (GeminiService.scriptPrompt (topic Spec.typed_topic));
              GeminiService.coverArtRequest
                (GeminiService.coverPrompt (Types.title script) (Types.topic script));
              GeminiService.ttsRequest (GeminiService.audioPrompt script) "Nova";
              GeminiService.ttsRequest (GeminiService.audioPrompt script) "Kore"] /\
    length (handleGenerate b Spec.typed_topic []).2 = length (@nil GenAI.Request) + 4.
Proof.
  intros b.
  apply (successful_generation_issues_four_requests b Spec.typed_topic []);
    vm_compute; reflexivity.
Defined.

End Generation.

(* ===================================================================== *)
(** * Properties of runs: generation and playback together *)
(* ===================================================================== *)

Section Runs.

Import App.

Lemma stop_preserves_onended n n' :
  WebAudio.stop n = Ok n' -> WebAudio.onended n' = WebAudio.onended n.
Proof.
  unfold WebAudio.stop. destruct (WebAudio.started n); [|discriminate].
  intros [= <-]. reflexivity.
Qed.

Lemma stop_quietly_installed r h :
  Spec.handlers_installed h -> Spec.handlers_installed (WebAudio.stop_quietly r h).
Proof.
  unfold Spec.handlers_installed, WebAudio.stop_quietly. intros Hh.
  destruct (h !! r) as [n|] eqn:Hn; [|exact Hh].
  destruct (WebAudio.stop n) as [n'|e] eqn:Hs; cbn; [|exact Hh].
  apply Forall_insert; [exact Hh|].
  rewrite (stop_preserves_onended _ _ Hs).
  exact (Forall_lookup_1 _ _ _ _ Hh Hn).
Qed.

(** What a submitted [handleGenerate] leaves of the playback state. *)
Lemma handleGenerate_playback b st log :
  Spec.submits st = true ->
  isPlaying (handleGenerate b st log).1 = false /\
  pausedTimeRef (handleGenerate b st log).1 = pausedTimeRef st /\
  startTimeRef (handleGenerate b st log).1 = startTimeRef st /\
  sourceNodeRef (handleGenerate b st log).1 = sourceNodeRef st /\
  nodes (handleGenerate b st log).1 = nodes (resetForGeneration st).
Proof.
  intros Hsub.
  destruct (handleGenerate_spec b st log Hsub) as (st1 & r & log' & Hg & ->).
  destruct (generation_spec _ _ _ _ _ _ Hg) as ((Hn & Hp & Hs & Hi & Hr & _) & _ & _).
  destruct (resetForGeneration_cleared st) as (_ & _ & Hpl & Hpt & Hst & Hsr & _ & _).
  destruct r; cbn; repeat split; congruence.
Qed.

Lemma handleGenerate_blank b st log :
  Spec.submits st = false -> handleGenerate b st log = (st, log).
Proof. unfold Spec.submits, handleGenerate. intros ->. reflexivity. Qed.

Lemma step_installed e s s' :
  step e s = Some s' ->
  Spec.handlers_installed (nodes s.1) -> Spec.handlers_installed (nodes s'.1).
Proof.
  destruct s as [st log]. destruct e as [b | t | c r]; cbn [step fst snd].
  - intros [= <-] Hh.
    destruct (Spec.submits st) eqn:Hsub.
    + destruct (handleGenerate_playback b st log Hsub) as (_ & _ & _ & _ & ->).
      destruct (resetForGeneration_cleared st) as (_ & _ & _ & _ & _ & _ & _ & ->).
      destruct (sourceNodeRef st); [apply stop_quietly_installed|]; exact Hh.
    + rewrite (handleGenerate_blank b st log Hsub). exact Hh.
  - intros Ht Hh.
    destruct (togglePlayback t st) as [st'|err] eqn:E; injection Ht as <-; [|exact Hh].
    cbn [fst]. revert E. unfold togglePlayback.
    destruct (episode st) as [ep|]; [|intros [= <-]; exact Hh].
    destruct (Types.audioBuffer ep) as [buf|]; [|intros [= <-]; exact Hh].
    destruct (audioContextRef st) as [ctx|]; [|intros [= <-]; exact Hh].
    destruct (isPlaying st).
    + destruct (sourceNodeRef st) as [r|]; intros [= <-]; cbn; [|exact Hh].
      apply stop_quietly_installed, Hh.
    + cbn. unfold WebAudio.start. destruct (pausedTimeRef st <? 0)%Z; [discriminate|].
      cbn. intros [= <-]. cbn. rewrite insert_fresh.
      apply Forall_app. split; [exact Hh|]. constructor; [reflexivity|constructor].
  - unfold dispatch_ended. intros Hd Hh.
    destruct (nodes st !! r) as [n|] eqn:Hn; cbn in Hd; [|discriminate].
    destruct (WebAudio.may_end c n); [|discriminate].
    injection Hd as <-. cbn [fst].
    assert (Hi : Spec.handlers_installed (<[r := WebAudio.mark_ended n]> (nodes st))).
    { apply Forall_insert; [exact Hh|]. exact (Forall_lookup_1 _ _ _ _ Hh Hn). }
    destruct (WebAudio.onended n) as [[]|]; cbn; exact Hi.
Qed.

Lemma run_installed es s s' :
  run es s = Some s' ->
  Spec.handlers_installed (nodes s.1) -> Spec.handlers_installed (nodes s'.1).
Proof.
  revert s. induction es as [|e es IH]; intros s; cbn [run].
  - intros [= <-]. auto.
  - destruct (step e s) as [s1|] eqn:E; cbn; [|discriminate].
    intros Hr Hh. apply (IH s1 Hr). exact (step_installed e s s1 E Hh).
Qed.

(** C6.  In every state the component reaches, a source that is playing
    (started, not stopped, its [ended] event not dispatched yet) may report
    that it played to its end; the dispatch then leaves the playing flag
    false and the paused offset zero. *)
Theorem natural_end_resets_playback
    (es : list Event) (s0 : State) (log0 : list GenAI.Request)
    (st : State) (log : list GenAI.Request)
    (r : WebAudio.Ref) (n : WebAudio.AudioBufferSourceNode) :
  nodes s0 = [] ->
  run es (s0, log0) = Some (st, log) ->
  nodes st !! r = Some n ->
  WebAudio.may_end WebAudio.PlayedToEnd n = true ->
  exists st',
    dispatch_ended WebAudio.PlayedToEnd r st = Some st' /\
    isPlaying st' = false /\
    pausedTimeRef st' = 0%Z.
Proof.
  intros Hempty Hrun Hn Hend.
  assert (Hh : Spec.handlers_installed (nodes st)).
  { apply (run_installed es (s0, log0) (st, log) Hrun). cbn. rewrite Hempty. constructor. }
  pose proof (Forall_lookup_1 _ _ _ _ Hh Hn) as Hon. cbn in Hon.
  unfold dispatch_ended. rewrite Hn. cbn. rewrite Hend, Hon. cbn. eauto.
Qed.

(** An episode is generated and played from clock reading 1; source 0 then
    plays to its end. *)
Lemma natural_end_resets_playback_witness :
  exists st',
    dispatch_ended WebAudio.PlayedToEnd 0
      (Spec.after [Generate Spec.good_browser; Toggle 1]) = Some st' /\
    isPlaying st' = false /\
    pausedTimeRef st' = 0%Z.
Proof.
  apply (natural_end_resets_playback
           [Generate Spec.good_browser; Toggle 1] Spec.typed_topic []
           (Spec.after [Generate Spec.good_browser; Toggle 1])
           (Spec.log_after [Generate Spec.good_browser; Toggle 1])
           0
           (default WebAudio.fresh_node
              (nodes (Spec.after [Generate Spec.good_browser; Toggle 1]) !! 0)));
    vm_compute; reflexivity.
Defined.






End Runs.

(* ===================================================================== *)
(** * Properties of the visualizer *)
(* ===================================================================== *)

Section Visualizer.

Import AudioVisualizer.

(** The attach step returns normally whatever [connect] does; when [connect]
    raises, the state is the one before the call. *)
Lemma attach_absorbs p r w :
  exists w', attach p r w = Ok w' /\
    (forall e, connectAnalyser p r w = Throw e -> w' = w) /\
    canvasRef w' = canvasRef w /\ analyserRef w' = analyserRef w /\
    animationRef w' = animationRef w /\ frames w' = frames w /\
    next_frame w' = next_frame w.
Proof.
  unfold attach. destruct (connectAnalyser p r w) as [w1|e] eqn:E; cbn.
  - exists w1. split; [reflexivity|]. split; [discriminate|].
    unfold connectAnalyser in E.
    destruct (heap w !! r) as [n|]; [|injection E as <-; auto].
    destruct (connect_raises p n); [discriminate|]. injection E as <-. cbn. auto.
  - exists w. split; [reflexivity|]. auto 10.
Qed.

Lemma draw_schedules w :
  animationRef (draw w) = next_frame w /\
  frames (draw w) = frames w ++ [next_frame w] /\
  analyserRef (draw w) = analyserRef w /\
  canvasRef (draw w) = canvasRef w /\
  heap (draw w) = heap w.
Proof. unfold draw. cbn. auto. Qed.

(** The effect with a source, a canvas and the playing flag set. *)
Lemma effect_running p props w ctx r canvas :
  Types.audioContext props = Some ctx ->
  Types.sourceNode props = Some r ->
  Types.isPlaying props = true ->
  canvasRef w = Some canvas -> context2d canvas = true ->
  exists w1,
    effect p props w = Ok (w1, true) /\
    canvasRef w1 = canvasRef w /\
    is_Some (analyserRef w1) /\
    (is_Some (analyserRef w) -> analyserRef w1 = analyserRef w) /\
    animationRef w1 ∈ frames w1 /\
    (forall n, heap w !! r = Some n -> connect_raises p n = None ->
       heap w1 !! r = Some (WebAudio.connect WebAudio.analyser n)).
Proof.
  intros Hc Hs Hp Hcv H2d. unfold effect. rewrite Hc, Hs, Hp, Hcv, H2d. cbn [negb].
  set (w0 := match analyserRef w with
             | Some _ => w
             | None => set_analyserRef (Some {| fftSize := 256 |}) w
             end).
  assert (Hw0 : canvasRef w0 = canvasRef w /\ is_Some (analyserRef w0) /\
                (is_Some (analyserRef w) -> analyserRef w0 = analyserRef w) /\
                heap w0 = heap w).
  { subst w0. destruct (analyserRef w) as [a|] eqn:Ea; cbn.
    - rewrite Ea. auto.
    - repeat split; eauto. intros [a Ha]. discriminate. }
  destruct Hw0 as (Hcv0 & Han0 & Hsame0 & Hheap0). clearbody w0.
  destruct (attach_absorbs p r w0) as (wa & Ea & _ & Hcva & Hana & _ & _ & _).
  rewrite Ea. cbn [mbind Js.Result_bind].
  destruct (draw_schedules wa) as (Hanim & Hfr & Hand & Hcvd & Hheapd).
  eexists. split; [reflexivity|].
  split; [congruence|]. split; [rewrite Hand, Hana; exact Han0|].
  split; [intros Hsome; rewrite Hand, Hana; auto|].
  split.
  { rewrite Hanim, Hfr. apply elem_of_app. right. apply list_elem_of_singleton. reflexivity. }
  intros n Hn Hraise. rewrite Hheapd.
  unfold attach, connectAnalyser in Ea. rewrite Hheap0, Hn, Hraise in Ea. cbn in Ea.
  injection Ea as <-. cbn.
  apply list_lookup_insert_eq. exact (lookup_lt_Some _ _ _ Hn).
Qed.

(** C7.  The attach step never raises: an exception of [connect] is caught.
    So the effect run on a source, cleaned up, and run again on the same
    source returns normally both times and leaves the redraw loop scheduled,
    also when the first run made the connection and the browser would refuse
    the second [connect]. *)
Theorem attach_twice_does_not_raise
    (p : Platform) (props : Types.AudioVisualizerProps) (w : World)
    (ctx : WebAudio.AudioContext) (r : WebAudio.Ref) (canvas : Canvas) :
  Types.audioContext props = Some ctx ->
  Types.sourceNode props = Some r ->
  Types.isPlaying props = true ->
  canvasRef w = Some canvas -> context2d canvas = true ->
  (forall w0, exists w', attach p r w0 = Ok w') /\
  exists w1 w2,
    effect p props w = Ok (w1, true) /\
    (forall n, heap w !! r = Some n -> connect_raises p n = None ->
       exists n1, heap w1 !! r = Some n1 /\ WebAudio.analyser ∈ WebAudio.outputs n1) /\
    effect p props (cleanup w1) = Ok (w2, true) /\
    analyserRef w2 = analyserRef w1 /\
    animationRef w2 ∈ frames w2.
Proof.
  intros Hc Hs Hp Hcv H2d. split.
  { intros w0. destruct (attach_absorbs p r w0) as (w' & E & _). eauto. }
  destruct (effect_running p props w ctx r canvas Hc Hs Hp Hcv H2d)
    as (w1 & E1 & Hcv1 & Han1 & _ & _ & Hconn).
  assert (Hcv1' : canvasRef (cleanup w1) = Some canvas) by (cbn; congruence).
  destruct (effect_running p props (cleanup w1) ctx r canvas Hc Hs Hp Hcv1' H2d)
    as (w2 & E2 & _ & _ & Hsame & Hloop & _).
  exists w1, w2. split; [exact E1|]. split.
  { intros n Hn Hraise. eexists. split; [exact (Hconn n Hn Hraise)|].
    cbn. destruct (existsb _ (WebAudio.outputs n)) eqn:Ex.
    - apply existsb_exists in Ex as (t & Hin & Ht).
      destruct t; [discriminate|]. apply list_elem_of_In. exact Hin.
    - apply elem_of_app. right. apply list_elem_of_singleton. reflexivity. }
  split; [exact E2|]. split; [apply Hsame; exact Han1 | exact Hloop].
Qed.

(** A browser that refuses a second [connect]: the first run connects source
    0 to the analyser, the second run's [connect] raises and is absorbed. *)
Lemma attach_twice_does_not_raise_witness :
  (forall n, heap Spec.mounted !! 0 = Some n ->
     connect_raises Spec.strict_platform n = None /\
     connect_raises Spec.strict_platform (WebAudio.connect WebAudio.analyser n) <> None) /\
  (forall w0, exists w', attach Spec.strict_platform 0 w0 = Ok w') /\
  exists w1 w2,
    effect Spec.strict_platform Spec.playing_props Spec.mounted = Ok (w1, true) /\
    (forall n, heap Spec.mounted !! 0 = Some n ->
       connect_raises Spec.strict_platform n = None ->
       exists n1, heap w1 !! 0 = Some n1 /\ WebAudio.analyser ∈ WebAudio.outputs n1) /\
    effect Spec.strict_platform Spec.playing_props (cleanup w1) = Ok (w2, true) /\
    analyserRef w2 = analyserRef w1 /\
    animationRef w2 ∈ frames w2.
Proof.
  split.
  { intros n [= <-]. split; [reflexivity | discriminate]. }
  apply (attach_twice_does_not_raise Spec.strict_platform Spec.playing_props Spec.mounted
           {| WebAudio.state := WebAudio.running |} 0
           {| width := 600; height := 100; context2d := true |});
    reflexivity.
Defined.

End Visualizer.

(* ===================================================================== *)
(** * Further properties of the generation pipeline *)
(* ===================================================================== *)

Section Pipeline.

Import App.

Ltac open_service :=
  unfold GeminiService.generateScript, GeminiService.generateCoverArt,
    GeminiService.generateAudio, GeminiService.getAiClient,
    mbind, GeminiService.Service_bind, GeminiService.bind, GeminiService.ask,
    GeminiService.throw, GeminiService.ret, GeminiService.send, GeminiService.lift in *.

Lemma trimStart_blank s : Spec.all_white_space s = true -> Js.trimStart s = EmptyString.
Proof.
  induction s as [|c s IH]; cbn; [reflexivity|].
  intros [Hc Hs]%andb_prop. rewrite Hc. exact (IH Hs).
Qed.

Lemma trimEnd_keeps_first c s :
  Js.is_white_space c = false -> Js.trimEnd (String c s) <> EmptyString.
Proof.
  intros Hc. cbn. destruct (Js.trimEnd s); [rewrite Hc|]; discriminate.
Qed.

Lemma trim_not_blank s : Spec.all_white_space s = false -> Js.trim s <> EmptyString.
Proof.
  unfold Js.trim. induction s as [|c s IH]; cbn [Spec.all_white_space Js.trimStart];
    [discriminate|].
  destruct (Js.is_white_space c) eqn:Hc; cbn [andb].
  - exact IH.
  - intros _. apply trimEnd_keeps_first, Hc.
Qed.

Lemma submits_all_white_space st :
  Spec.submits st = negb (Spec.all_white_space (topic st)).
Proof.
  unfold Spec.submits, Js.trim.
  destruct (Spec.all_white_space (topic st)) eqn:E.
  - rewrite (trimStart_blank _ E). reflexivity.
  - pose proof (trim_not_blank _ E) as Hne. unfold Js.trim in Hne.
    destruct (Js.trimEnd (Js.trimStart (topic st))); [contradiction|reflexivity].
Qed.

Lemma is_white_space_codes c :
  Js.is_white_space c = existsb (Nat.eqb (nat_of_ascii c)) [9; 10; 11; 12; 13; 32; 160].
Proof.
  destruct c as [[] [] [] [] [] [] [] []]; reflexivity.
Qed.

Lemma all_white_space_codes s :
  Spec.all_white_space s =
  forallb (fun c => existsb (Nat.eqb (nat_of_ascii c)) [9; 10; 11; 12; 13; 32; 160])
    (list_ascii_of_string s).
Proof.
  induction s as [|c s IH]; [reflexivity|].
  cbn [Spec.all_white_space list_ascii_of_string forallb].
  rewrite IH, is_white_space_codes. reflexivity.
Qed.

Lemma handleGenerate_stage b st log :
  Spec.submits st = true ->
  loadingStage (handleGenerate b st log).1 = Types.COMPLETE \/
  loadingStage (handleGenerate b st log).1 = Types.ERROR.
Proof.
  intros Hsub.
  destruct (handleGenerate_spec b st log Hsub) as (st1 & r & log' & Hg & ->).
  destruct (generation_spec _ _ _ _ _ _ Hg) as (_ & _ & Hr).
  destruct r as [u|e]; cbn; [left; tauto | right; reflexivity].
Qed.

(** X4.  For a topic made of code units below 256, [handleGenerate] ignores
    the submission exactly when every code unit of the topic is one that
    [trim] removes, that is TAB, LF, VT, FF, CR, SPACE or NO-BREAK SPACE (the
    empty topic included): the state is unchanged and nothing is requested.
    Any other topic is taken, and the handler ends in the stage [COMPLETE]
    or [ERROR]. *)
Theorem blank_topic_is_ignored (b : Browser) (st : State) (log : list GenAI.Request) :
  if forallb (fun c => existsb (Nat.eqb (nat_of_ascii c)) [9; 10; 11; 12; 13; 32; 160])
       (list_ascii_of_string (topic st))
  then handleGenerate b st log = (st, log)
  else loadingStage (handleGenerate b st log).1 = Types.COMPLETE \/
       loadingStage (handleGenerate b st log).1 = Types.ERROR.
Proof.
  pose proof (submits_all_white_space st) as Hs.
  rewrite <- all_white_space_codes.
  destruct (Spec.all_white_space (topic st)).
  - apply handleGenerate_blank, Hs.
  - apply handleGenerate_stage, Hs.
Qed.

(** A topic of a NO-BREAK SPACE and a SPACE is ignored; a topic with a letter
    between two spaces is taken. *)
Lemma blank_topic_is_ignored_witness :
  let blank := setTopic (String (ascii_of_nat 160) " ") initial in
  let padded := setTopic " a " initial in
  handleGenerate Spec.good_browser blank [] = (blank, []) /\
  (loadingStage (handleGenerate Spec.good_browser padded []).1 = Types.COMPLETE \/
   loadingStage (handleGenerate Spec.good_browser padded []).1 = Types.ERROR).
Proof.
  intros blank padded. split.
  - exact (blank_topic_is_ignored Spec.good_browser blank []).
  - exact (blank_topic_is_ignored Spec.good_browser padded []).
Defined.

Lemma initAudio_ready b st :
  Spec.audio_ready b st = true ->
  exists ctx, initAudio b st = Ok (set_audioContextRef (Some ctx) st).
Proof.
  unfold Spec.audio_ready, initAudio.
  destruct st as [tp ls ep pl er [ctx|] sr stt pt nd]; cbn.
  - intros _. destruct (WebAudio.state ctx) eqn:Hs; eauto.
  - destruct (new_AudioContext b) as [ctx|e]; cbn; [|discriminate].
    intros _. destruct (WebAudio.state ctx) eqn:Hs; eauto.
Qed.

Lemma audio_ready_reset b st :
  Spec.audio_ready b (resetForGeneration st) = Spec.audio_ready b st.
Proof.
  unfold Spec.audio_ready, resetForGeneration. cbn.
  destruct (sourceNodeRef st); reflexivity.
Qed.

(** A submitted generation whose script stage rejects. *)
Lemma handleGenerate_script_throw b st log e log1 :
  Spec.submits st = true -> Spec.audio_ready b st = true ->
  GeminiService.generateScript (topic st) (service b) log = (Throw e, log1) ->
  (handleGenerate b st log).2 = log1 /\
  episode (handleGenerate b st log).1 = None /\
  loadingStage (handleGenerate b st log).1 = Types.ERROR /\
  error (handleGenerate b st log).1 =
    Some (Js.or_else (Some (Js.message e)) defaultMessage).
Proof.
  intros Hsub Hready Hs.
  destruct (handleGenerate_spec b st log Hsub) as (st1 & r & log' & Hg & ->).
  destruct (resetForGeneration_cleared st) as (Hep & _ & _ & _ & _ & _ & Htopic & _).
  rewrite <- audio_ready_reset in Hready.
  destruct (initAudio_ready _ _ Hready) as (ctx & Hi).
  unfold generation in Hg. rewrite Hi in Hg. cbn in Hg.
  rewrite Htopic, Hs in Hg. injection Hg as <- <- <-. cbn. auto.
Qed.

Lemma getAiClient_missing env :
  Js.truthy (GeminiService.API_KEY env) = false ->
  forall topic log,
    GeminiService.generateScript topic env log =
      (Throw (mkExn Js.Error "API_KEY not found in environment"), log).
Proof.
  intros Hk topic log. open_service. rewrite Hk. reflexivity.
Qed.

(** A submitted generation whose context cannot be constructed. *)
Lemma handleGenerate_constructor_throw b st log e :
  Spec.submits st = true ->
  audioContextRef st = None -> new_AudioContext b = Throw e ->
  (handleGenerate b st log).2 = log /\
  episode (handleGenerate b st log).1 = None /\
  loadingStage (handleGenerate b st log).1 = Types.ERROR /\
  error (handleGenerate b st log).1 =
    Some (Js.or_else (Some (Js.message e)) defaultMessage).
Proof.
  intros Hsub Hnone Hthrow.
  destruct (handleGenerate_spec b st log Hsub) as (st1 & r & log' & Hg & ->).
  destruct (resetForGeneration_cleared st) as (Hep & _).
  assert (Hi : initAudio b (resetForGeneration st) = Throw e).
  { unfold initAudio, resetForGeneration. cbn.
    destruct (sourceNodeRef st); cbn; rewrite Hnone, Hthrow; reflexivity. }
  unfold generation in Hg. rewrite Hi in Hg. injection Hg as <- <- <-. cbn.
  auto.
Qed.

(** X5.  Without a credential ([API_KEY] undefined or empty) a submitted
    generation sends nothing to the provider and ends with no episode and the
    stage [ERROR].  The message shown is "API_KEY not found in environment",
    except when the component has no audio context yet and the constructor
    throws: [initAudio] runs first, so the message is then the constructor's
    (the default text when it is empty).  The image and audio stages, called
    on their own, reject with "API_KEY not found in environment" before any
    request. *)
Theorem missing_credential_sends_nothing
    (b : Browser) (st : State) (log : list GenAI.Request) :
  Js.truthy (GeminiService.API_KEY (service b)) = false ->
  (Spec.submits st = true ->
   (handleGenerate b st log).2 = log /\
   episode (handleGenerate b st log).1 = None /\
   loadingStage (handleGenerate b st log).1 = Types.ERROR /\
   error (handleGenerate b st log).1 =
     Some (match audioContextRef st, new_AudioContext b with
           | None, Throw e =>
               match Js.message e with
               | EmptyString => "Something went wrong creating your podcast."
               | msg => msg
               end
           | _, _ => "API_KEY not found in environment"
           end)) /\
  (forall title topic,
     GeminiService.generateCoverArt title topic (service b) log =
       (Throw (mkExn Js.Error "API_KEY not found in environment"), log)) /\
  (forall script ctx,
     GeminiService.generateAudio script ctx (service b) log =
       (Throw (mkExn Js.Error "API_KEY not found in environment"), log)).
Proof.
  intros Hk. split; [|split].
  - intros Hsub.
    assert (Hready :
      Spec.audio_ready b st = true ->
      (handleGenerate b st log).2 = log /\
      episode (handleGenerate b st log).1 = None /\
      loadingStage (handleGenerate b st log).1 = Types.ERROR /\
      error (handleGenerate b st log).1 = Some "API_KEY not found in environment").
    { intros Hready.
      exact (handleGenerate_script_throw b st log _ log Hsub Hready
               (getAiClient_missing _ Hk (topic st) log)). }
    unfold Spec.audio_ready in Hready.
    destruct (audioContextRef st) as [ctx|] eqn:Hctx; [exact (Hready eq_refl)|].
    destruct (new_AudioContext b) as [ctx|e] eqn:Hnew; [exact (Hready eq_refl)|].
    destruct (handleGenerate_constructor_throw b st log e Hsub Hctx Hnew)
      as (Hlog & Hep & Hst & Herr).
    split; [exact Hlog|]. split; [exact Hep|]. split; [exact Hst|].
    rewrite Herr. destruct (Js.message e); reflexivity.
  - intros title tp. open_service. rewrite Hk. reflexivity.
  - intros script ctx. open_service. rewrite Hk. reflexivity.
Qed.

Lemma generateScript_throw_log topic env log e log1 :
  GeminiService.generateScript topic env log = (Throw e, log1) ->
  log1 = log \/
  log1 = log ++ [GeminiService.scriptRequest (GeminiService.scriptPrompt topic)].
Proof.
  open_service.
  destruct (Js.truthy (GeminiService.API_KEY env)); cbn; [|intros [= _ <-]; auto].
  destruct (GeminiService.generateContent env _ _) as [r|e0]; cbn; [|intros [= _ <-]; auto].
  destruct (Js.truthy (GenAI.text r)); cbn; intros [= _ <-]; auto.
Qed.

(** X6.  When the script stage rejects, a submitted generation stops there:
    the log of requests holds at most the script request more than before,
    so neither the image nor the speech model is ever asked; the episode is
    absent, the stage is [ERROR], and the message shown is the rejection's
    message, or the default text when that message is empty. *)
Theorem script_failure_stops_pipeline
    (b : Browser) (st : State) (log : list GenAI.Request)
    (e : Exn) (log1 : list GenAI.Request) :
  Spec.submits st = true -> Spec.audio_ready b st = true ->
  GeminiService.generateScript (topic st) (service b) log = (Throw e, log1) ->
  ((handleGenerate b st log).2 = log \/
   (handleGenerate b st log).2 =
     log ++ [GeminiService.scriptRequest (GeminiService.scriptPrompt (topic st))]) /\
  episode (handleGenerate b st log).1 = None /\
  loadingStage (handleGenerate b st log).1 = Types.ERROR /\
  error (handleGenerate b st log).1 =
    Some (match Js.message e with
          | EmptyString => "Something went wrong creating your podcast."
          | msg => msg
          end).
Proof.
  intros Hsub Hready Hs.
  destruct (handleGenerate_script_throw b st log e log1 Hsub Hready Hs)
    as (Hlog & Hep & Hst & Herr).
  split; [rewrite Hlog; exact (generateScript_throw_log _ _ _ _ _ Hs)|].
  split; [exact Hep|]. split; [exact Hst|].
  rewrite Herr. destruct (Js.message e); reflexivity.
Qed.

Lemma generateCoverArt_ok_shape title topic env log cover log1 :
  GeminiService.generateCoverArt title topic env log = (Ok cover, log1) ->
  exists c payload, cover = "data:image/png;base64," +:+ String c payload.
Proof.
  open_service.
  destruct (Js.truthy (GeminiService.API_KEY env)); cbn; try discriminate.
  destruct (GeminiService.generateContent env _ _) as [r|e]; cbn; try discriminate.
  destruct (GeminiService.extractImage r) as [[[|c payload]|]|e]; cbn; try discriminate.
  intros [= <- _]. eauto.
Qed.

(** X7.  When a submitted generation has run, the form is enabled again and
    exactly one of two things is shown.  Either the results: an episode that
    holds the script, a cover that is a PNG data URL with a non-empty payload
    and a decoded buffer, all three together, and no error box.  Or the error
    box, with no episode and no results. *)
Theorem finished_generation_shows_results_or_error
    (b : Browser) (st : State) (log : list GenAI.Request) :
  Spec.submits st = true ->
  AppView.busy (handleGenerate b st log).1 = false /\
  ((AppView.showsResults (handleGenerate b st log).1 = true /\
    AppView.showsError (handleGenerate b st log).1 = false /\
    exists script c payload buf,
      episode (handleGenerate b st log).1 =
        Some {| Types.id := Js.toString (Date_now b);
                Types.script := script;
                Types.coverImageBase64 :=
                  Some ("data:image/png;base64," +:+ String c payload);
                Types.audioBuffer := Some buf |})
   \/
   (AppView.showsResults (handleGenerate b st log).1 = false /\
    AppView.showsError (handleGenerate b st log).1 = true /\
    episode (handleGenerate b st log).1 = None)).
Proof.
  intros Hsub.
  destruct (handleGenerate_spec b st log Hsub) as (st1 & r & log' & Hg & ->).
  destruct (generation_spec _ _ _ _ _ _ Hg) as (_ & Herr & Hr).
  destruct (resetForGeneration_cleared st) as (Hep & Her & _).
  cbn [fst]. destruct r as [u|e].
  - destruct Hr as (Hst & _ & script & log1 & cover & log2 & audio & _ & Ha & _ & Hep1).
    destruct (generateCoverArt_ok_shape _ _ _ _ _ _ Ha) as (c & payload & ->).
    unfold AppView.busy, AppView.showsResults, AppView.showsError.
    rewrite Hst, Hep1, Herr, Her. split; [reflexivity|]. left.
    split; [reflexivity|]. split; [reflexivity|]. eauto.
  - unfold AppView.busy, AppView.showsResults, AppView.showsError. cbn.
    split; [reflexivity|]. right. rewrite Hr, Hep.
    split; [reflexivity|]. split; [|reflexivity].
    destruct (Js.message e); reflexivity.
Qed.

(** X8.  The audio stage awaits a first speech request whose answer it never
    reads.  When that request is rejected the stage rejects with the same
    reason after this one request: the second request, the only one whose
    answer is used, is not sent. *)
Theorem unused_speech_request_can_fail_the_stage
    (script : Types.PodcastScript) (ctx : WebAudio.AudioContext)
    (env : GeminiService.Env) (log : list GenAI.Request) (e : Exn) :
  Js.truthy (GeminiService.API_KEY env) = true ->
  GeminiService.generateContent env (length log)
    (GeminiService.ttsRequest (GeminiService.audioPrompt script) "Nova") = Throw e ->
  GeminiService.generateAudio script ctx env log =
    (Throw e,
     log ++ [GeminiService.ttsRequest (GeminiService.audioPrompt script) "Nova"]).
Proof.
  intros Hk Hr. open_service. rewrite Hk. cbn. rewrite Hr. reflexivity.
Qed.

(** X9.  The image stage takes the first part of the first candidate that has
    an [inlineData], whatever follows it: the cover is the PNG data URL of
    that part's payload, and when that payload is missing or empty the stage
    raises "No image generated" even if a later part carries an image. *)
Theorem cover_is_first_inline_payload
    (title topic : string) (env : GeminiService.Env) (log : list GenAI.Request)
    (txt : option string) (pre : list GenAI.Part) (blob : GenAI.Blob)
    (rest : list GenAI.Part) (cs : list GenAI.Candidate) :
  Js.truthy (GeminiService.API_KEY env) = true ->
  GeminiService.generateContent env (length log)
    (GeminiService.coverArtRequest (GeminiService.coverPrompt title topic)) =
    Ok {| GenAI.text := txt;
          GenAI.candidates :=
            Some ({| GenAI.content :=
                       Some {| GenAI.parts :=
                                 Some (pre ++ {| GenAI.inlineData := Some blob |} :: rest) |} |}
                  :: cs) |} ->
  Forall (fun p => GenAI.inlineData p = None) pre ->
  GeminiService.generateCoverArt title topic env log =
    (match GenAI.data blob with
     | Some (String c payload) => Ok ("data:image/png;base64," +:+ String c payload)
     | _ => Throw (mkExn Js.Error "No image generated")
     end,
     log ++ [GeminiService.coverArtRequest (GeminiService.coverPrompt title topic)]).
Proof.
  intros Hk Hr Hpre. open_service. rewrite Hk. cbn. rewrite Hr.
  unfold GeminiService.extractImage.
  cbn [GenAI.candidates GenAI.content GenAI.parts].
  rewrite scanParts_skips by exact Hpre.
  destruct (GenAI.data blob) as [[|c payload]|]; reflexivity.
Qed.

(** The audio stage on a non-empty payload: [atob], then [decodeAudioData] on
    the character codes. *)
Lemma generateAudio_decodes
    (script : Types.PodcastScript) (ctx : WebAudio.AudioContext)
    (env : GeminiService.Env) (log : list GenAI.Request)
    (r1 : GenAI.GenerateContentResponse) (txt : option string)
    (c : ascii) (payload : string) (ps : list GenAI.Part) (cs : list GenAI.Candidate) :
  Js.truthy (GeminiService.API_KEY env) = true ->
  GeminiService.generateContent env (length log)
    (GeminiService.ttsRequest (GeminiService.audioPrompt script) "Nova") = Ok r1 ->
  GeminiService.generateContent env (S (length log))
    (GeminiService.ttsRequest (GeminiService.audioPrompt script) "Kore") =
    Ok {| GenAI.text := txt;
          GenAI.candidates :=
            Some ({| GenAI.content :=
                       Some {| GenAI.parts :=
                                 Some ({| GenAI.inlineData :=
                                            Some {| GenAI.data := Some (String c payload) |} |}
                                       :: ps) |} |}
                  :: cs) |} ->
  GeminiService.generateAudio script ctx env log =
    (match GeminiService.atob env (String c payload) with
     | Ok binaryString => GeminiService.decodeAudioData env (Js.charCodes binaryString)
     | Throw e => Throw e
     end,
     log ++ [GeminiService.ttsRequest (GeminiService.audioPrompt script) "Nova";
             GeminiService.ttsRequest (GeminiService.audioPrompt script) "Kore"]).
Proof.
  intros Hk Hr1 Hr2. open_service. rewrite Hk. cbn. rewrite Hr1.
  rewrite length_app. cbn [length]. replace (length log + 1) with (S (length log)) by lia.
  rewrite Hr2. cbn. rewrite <- app_assoc.
  destruct (GeminiService.atob env (String c payload)); reflexivity.
Qed.

Lemma generateAudio_undecodable script ctx env log r1 txt c payload ps cs e :
  Js.truthy (GeminiService.API_KEY env) = true ->
  GeminiService.generateContent env (length log)
    (GeminiService.ttsRequest (GeminiService.audioPrompt script) "Nova") = Ok r1 ->
  GeminiService.generateContent env (S (length log))
    (GeminiService.ttsRequest (GeminiService.audioPrompt script) "Kore") =
    Ok {| GenAI.text := txt;
          GenAI.candidates :=
            Some ({| GenAI.content :=
                       Some {| GenAI.parts :=
                                 Some ({| GenAI.inlineData :=
                                            Some {| GenAI.data := Some (String c payload) |} |}
                                       :: ps) |} |}
                  :: cs) |} ->
  (GeminiService.atob env (String c payload) = Throw e \/
   exists binaryString,
     GeminiService.atob env (String c payload) = Ok binaryString /\
     GeminiService.decodeAudioData env (Js.charCodes binaryString) = Throw e) ->
  GeminiService.generateAudio script ctx env log =
    (Throw e,
     log ++ [GeminiService.ttsRequest (GeminiService.audioPrompt script) "Nova";
             GeminiService.ttsRequest (GeminiService.audioPrompt script) "Kore"]).
Proof.
  intros Hk Hr1 Hr2 Hbad.
  rewrite (generateAudio_decodes script ctx env log r1 txt c payload ps cs Hk Hr1 Hr2).
  destruct Hbad as [-> | (bin & -> & ->)]; reflexivity.
Qed.

(** A submitted generation whose script and art stages resolve and whose
    audio stage rejects. *)
Lemma handleGenerate_audio_throw b st log script log1 cover log2 e log3 :
  Spec.submits st = true -> Spec.audio_ready b st = true ->
  GeminiService.generateScript (topic st) (service b) log = (Ok script, log1) ->
  GeminiService.generateCoverArt (Types.title script) (Types.topic script)
    (service b) log1 = (Ok cover, log2) ->
  (forall ctx, GeminiService.generateAudio script ctx (service b) log2 = (Throw e, log3)) ->
  (handleGenerate b st log).2 = log3 /\
  episode (handleGenerate b st log).1 = None /\
  loadingStage (handleGenerate b st log).1 = Types.ERROR /\
  error (handleGenerate b st log).1 =
    Some (Js.or_else (Some (Js.message e)) defaultMessage).
Proof.
  intros Hsub Hready Hs Ha Hd.
  destruct (handleGenerate_spec b st log Hsub) as (st1 & r & log' & Hg & ->).
  destruct (resetForGeneration_cleared st) as (Hep & _ & _ & _ & _ & _ & Htopic & _).
  rewrite <- audio_ready_reset in Hready.
  destruct (initAudio_ready _ _ Hready) as (ctx & Hi).
  unfold generation in Hg. rewrite Hi in Hg. cbn in Hg.
  rewrite Htopic, Hs, Ha in Hg. cbn in Hg. rewrite (Hd _) in Hg. cbn in Hg.
  injection Hg as <- <- <-. cbn. auto.
Qed.

(** X10.  The script and the cover were produced and the second speech
    answer carries a non-empty payload, but [atob] refuses the payload, or
    [decodeAudioData] refuses its bytes: the generation ends with the
    decoder's message (the default text when it is empty), the stage [ERROR]
    and no episode, after the two speech requests; no buffer is made up and
    the script and the cover are dropped. *)
Theorem undecodable_audio_fails_generation
    (b : Browser) (st : State) (log : list GenAI.Request)
    (script : Types.PodcastScript) (log1 : list GenAI.Request)
    (cover : string) (log2 : list GenAI.Request)
    (r1 : GenAI.GenerateContentResponse) (txt : option string)
    (c : ascii) (payload : string) (ps : list GenAI.Part) (cs : list GenAI.Candidate)
    (e : Exn) :
  Spec.submits st = true -> Spec.audio_ready b st = true ->
  GeminiService.generateScript (topic st) (service b) log = (Ok script, log1) ->
  GeminiService.generateCoverArt (Types.title script) (Types.topic script)
    (service b) log1 = (Ok cover, log2) ->
  GeminiService.generateContent (service b) (length log2)
    (GeminiService.ttsRequest (GeminiService.audioPrompt script) "Nova") = Ok r1 ->
  GeminiService.generateContent (service b) (S (length log2))
    (GeminiService.ttsRequest (GeminiService.audioPrompt script) "Kore") =
    Ok {| GenAI.text := txt;
          GenAI.candidates :=
            Some ({| GenAI.content :=
                       Some {| GenAI.parts :=
                                 Some ({| GenAI.inlineData :=
                                            Some {| GenAI.data := Some (String c payload) |} |}
                                       :: ps) |} |}
                  :: cs) |} ->
  (GeminiService.atob (service b) (String c payload) = Throw e \/
   exists binaryString,
     GeminiService.atob (service b) (String c payload) = Ok binaryString /\
     GeminiService.decodeAudioData (service b) (Js.charCodes binaryString) = Throw e) ->
  (handleGenerate b st log).2 =
    log2 ++ [GeminiService.ttsRequest (GeminiService.audioPrompt script) "Nova";
             GeminiService.ttsRequest (GeminiService.audioPrompt script) "Kore"] /\
  episode (handleGenerate b st log).1 = None /\
  loadingStage (handleGenerate b st log).1 = Types.ERROR /\
  error (handleGenerate b st log).1 =
    Some (match Js.message e with
          | EmptyString => "Something went wrong creating your podcast."
          | msg => msg
          end).
Proof.
  intros Hsub Hready Hs Ha Hr1 Hr2 Hbad.
  assert (Hk : Js.truthy (GeminiService.API_KEY (service b)) = true).
  { destruct (Js.truthy (GeminiService.API_KEY (service b))) eqn:Hk; [reflexivity|].
    rewrite (getAiClient_missing _ Hk) in Hs. discriminate. }
  destruct (handleGenerate_audio_throw b st log script log1 cover log2 e _
              Hsub Hready Hs Ha
              (fun ctx => generateAudio_undecodable script ctx (service b) log2
                            r1 txt c payload ps cs e Hk Hr1 Hr2 Hbad))
    as (Hlog & Hep & Hst & Herr).
  split; [exact Hlog|]. split; [exact Hep|]. split; [exact Hst|].
  rewrite Herr. destruct (Js.message e); reflexivity.
Qed.

(** *** The pipeline run on concrete providers *)

Lemma missing_credential_sends_nothing_witness :
  let no_context :=
    {| service := service Spec.keyless;
       new_AudioContext := Throw (mkExn Js.TypeError "AudioContextClass is not a constructor");
       Date_now := Date_now Spec.keyless;
       audio_rejects_first := audio_rejects_first Spec.keyless |} in
  ((handleGenerate Spec.keyless Spec.typed_topic []).2 = [] /\
   episode (handleGenerate Spec.keyless Spec.typed_topic []).1 = None /\
   loadingStage (handleGenerate Spec.keyless Spec.typed_topic []).1 = Types.ERROR /\
   error (handleGenerate Spec.keyless Spec.typed_topic []).1 =
     Some "API_KEY not found in environment") /\
  ((handleGenerate no_context Spec.typed_topic []).2 = [] /\
   episode (handleGenerate no_context Spec.typed_topic []).1 = None /\
   loadingStage (handleGenerate no_context Spec.typed_topic []).1 = Types.ERROR /\
   error (handleGenerate no_context Spec.typed_topic []).1 =
     Some "AudioContextClass is not a constructor").
Proof.
  intros no_context. split.
  - destruct (missing_credential_sends_nothing Spec.keyless Spec.typed_topic [] eq_refl)
      as (H & _).
    exact (H eq_refl).
  - destruct (missing_credential_sends_nothing no_context Spec.typed_topic [] eq_refl)
      as (H & _).
    exact (H eq_refl).
Defined.

(** The provider is unreachable and its rejection has no message: one
    request, and the default text. *)
Lemma script_failure_stops_pipeline_witness :
  ((handleGenerate Spec.offline Spec.typed_topic []).2 = [] \/
   (handleGenerate Spec.offline Spec.typed_topic []).2 =
     [] ++ [GeminiService.scriptRequest (GeminiService.scriptPrompt (topic Spec.typed_topic))]) /\
  episode (handleGenerate Spec.offline Spec.typed_topic []).1 = None /\
  loadingStage (handleGenerate Spec.offline Spec.typed_topic []).1 = Types.ERROR /\
  error (handleGenerate Spec.offline Spec.typed_topic []).1 =
    Some "Something went wrong creating your podcast.".
Proof.
  exact (script_failure_stops_pipeline Spec.offline Spec.typed_topic []
           (mkExn Js.OtherError EmptyString)
           [GeminiService.scriptRequest (GeminiService.scriptPrompt (topic Spec.typed_topic))]
           eq_refl eq_refl eq_refl).
Defined.

Lemma finished_generation_shows_results_or_error_witness :
  AppView.busy (handleGenerate Spec.good_browser Spec.typed_topic []).1 = false /\
  AppView.showsResults (handleGenerate Spec.good_browser Spec.typed_topic []).1 = true /\
  AppView.showsResults (handleGenerate Spec.offline Spec.typed_topic []).1 = false /\
  AppView.showsError (handleGenerate Spec.offline Spec.typed_topic []).1 = true.
Proof.
  destruct (finished_generation_shows_results_or_error
              Spec.good_browser Spec.typed_topic [] eq_refl) as (Hb & _).
  destruct (finished_generation_shows_results_or_error
              Spec.offline Spec.typed_topic [] eq_refl) as (_ & _).
  split; [exact Hb|]. repeat split; reflexivity.
Defined.

Lemma unused_speech_request_can_fail_the_stage_witness :
  let log := [GeminiService.scriptRequest "s"; GeminiService.coverArtRequest "c"] in
  GeminiService.generateAudio Spec.sushi {| WebAudio.state := WebAudio.running |}
    (service Spec.nova_rejected) log =
    (Throw (mkExn Js.OtherError "Voice Nova is not supported"),
     log ++ [GeminiService.ttsRequest (GeminiService.audioPrompt Spec.sushi) "Nova"]).
Proof.
  intros log.
  exact (unused_speech_request_can_fail_the_stage Spec.sushi
           {| WebAudio.state := WebAudio.running |} (service Spec.nova_rejected) log
           (mkExn Js.OtherError "Voice Nova is not supported") eq_refl eq_refl).
Defined.

(** The first inline part is empty and a later part carries an image. *)
Lemma cover_is_first_inline_payload_witness :
  let answer := Spec.response_of
                  [Spec.text_part; {| GenAI.inlineData := Some {| GenAI.data := None |} |};
                   Spec.inline_part "iVBORw0KGgo="] in
  let env := service (Spec.scripted (Some "key") (fun _ => Ok answer) (fun s => Ok s)) in
  GeminiService.generateCoverArt "Rolling Through Time" "The history of Sushi" env [] =
    (Throw (mkExn Js.Error "No image generated"),
     [] ++ [GeminiService.coverArtRequest
              (GeminiService.coverPrompt "Rolling Through Time" "The history of Sushi")]).
Proof.
  intros answer env.
  apply (cover_is_first_inline_payload "Rolling Through Time" "The history of Sushi" env []
           None [Spec.text_part] {| GenAI.data := None |}
           [Spec.inline_part "iVBORw0KGgo="] []); [reflexivity | reflexivity |].
  repeat constructor.
Defined.

Lemma undecodable_audio_fails_generation_witness :
  length (handleGenerate Spec.corrupt Spec.typed_topic []).2 = 4 /\
  episode (handleGenerate Spec.corrupt Spec.typed_topic []).1 = None /\
  loadingStage (handleGenerate Spec.corrupt Spec.typed_topic []).1 = Types.ERROR /\
  error (handleGenerate Spec.corrupt Spec.typed_topic []).1 =
    Some "The string to be decoded is not correctly encoded.".
Proof.
  destruct (undecodable_audio_fails_generation Spec.corrupt Spec.typed_topic []
              Spec.sushi
              [GeminiService.scriptRequest (GeminiService.scriptPrompt (topic Spec.typed_topic))]
              "data:image/png;base64,iVBORw0KGgo="
              [GeminiService.scriptRequest (GeminiService.scriptPrompt (topic Spec.typed_topic));
               GeminiService.coverArtRequest
                 (GeminiService.coverPrompt (Types.title Spec.sushi) (Types.topic Spec.sushi))]
              (Spec.response_of [Spec.inline_part "UklGRg=="]) None
              "U"%char "klGRg==" [] []
              (mkExn Js.InvalidCharacterError
                 "The string to be decoded is not correctly encoded.")
              eq_refl eq_refl eq_refl eq_refl eq_refl eq_refl (or_introl eq_refl))
    as (Hlog & Hep & Hst & Herr).
  split; [rewrite Hlog; reflexivity|]. auto.
Defined.

End Pipeline.

(* ===================================================================== *)
(** * Further properties of the playback timeline *)
(* ===================================================================== *)

Section Timeline.

Import App.

Lemma togglePlayback_cases t st :
  togglePlayback t st = Ok st \/
  (exists e, togglePlayback t st = Throw e /\ (pausedTimeRef st < 0)%Z) \/
  (exists r, isPlaying st = true /\ sourceNodeRef st = Some r /\
     togglePlayback t st =
       Ok (setIsPlaying false
             (set_pausedTimeRef (pausedTimeRef st + (t - startTimeRef st))%Z
                (set_nodes (WebAudio.stop_quietly r (nodes st)) st)))) \/
  (exists buf, isPlaying st = false /\ (0 <= pausedTimeRef st)%Z /\
     togglePlayback t st =
       Ok (set_nodes (nodes st ++ [Spec.playing_node buf (pausedTimeRef st)])
             (setIsPlaying true
                (set_sourceNodeRef (Some (length (nodes st)))
                   (set_startTimeRef t st))))).
Proof.
  destruct (Spec.playable st) eqn:Hp.
  2:{ left. unfold togglePlayback. unfold Spec.playable in Hp.
      destruct (episode st) as [ep|]; [|reflexivity].
      destruct (Types.audioBuffer ep); [|reflexivity].
      destruct (audioContextRef st); [discriminate|reflexivity]. }
  destruct (isPlaying st) eqn:Hplay.
  - destruct (sourceNodeRef st) as [r|] eqn:Hr.
    + right; right; left. exists r. repeat split.
      apply togglePlayback_pause; assumption.
    + left. destruct (playable_inv st Hp) as (ep & buf & ctx & He & Hb & Hc).
      unfold togglePlayback. rewrite He, Hb, Hc, Hplay, Hr. reflexivity.
  - destruct (Z.ltb_spec (pausedTimeRef st) 0) as [Hneg|Hpos].
    + right; left. destruct (playable_inv st Hp) as (ep & buf & ctx & He & Hb & Hc).
      unfold togglePlayback. rewrite He, Hb, Hc, Hplay. cbn. unfold WebAudio.start.
      destruct (Z.ltb_spec (pausedTimeRef st) 0) as [_|Hge]; [|lia].
      cbn. eauto.
    + right; right; right.
      destruct (togglePlayback_play st t Hp Hplay Hpos) as (buf & _ & E). eauto.
Qed.

Lemma step_flag_has_source e s s' :
  step e s = Some s' ->
  Spec.handlers_installed (nodes s.1) ->
  Spec.flag_has_source s.1 -> Spec.flag_has_source s'.1.
Proof.
  destruct s as [st log]. destruct e as [b | t | c r]; cbn [step fst snd].
  - intros [= <-] _ Hinv.
    destruct (Spec.submits st) eqn:Hsub.
    + destruct (handleGenerate_playback b st log Hsub) as (Hpl & _).
      intros Hp. congruence.
    + rewrite (handleGenerate_blank b st log Hsub). exact Hinv.
  - intros Ht _ Hinv.
    destruct (togglePlayback_cases t st)
      as [E | [(e & E & _) | [(r & _ & _ & E) | (buf & _ & _ & E)]]];
      rewrite E in Ht; injection Ht as <-; cbn [fst]; try exact Hinv.
    + intros Hp. discriminate.
    + intros _. exists (length (nodes st)), (Spec.playing_node buf (pausedTimeRef st)).
      cbn. split; [reflexivity|]. split; [|reflexivity].
      rewrite lookup_app_r by lia.
      replace (length (nodes st) - length (nodes st)) with 0 by lia. reflexivity.
  - unfold dispatch_ended. intros Hd Hh Hinv.
    destruct (nodes st !! r) as [n|] eqn:Hn; cbn in Hd; [|discriminate].
    destruct (WebAudio.may_end c n); [|discriminate].
    injection Hd as <-. cbn [fst].
    rewrite (Forall_lookup_1 _ _ _ _ Hh Hn : WebAudio.onended n = _).
    intros Hp. discriminate.
Qed.

Lemma run_flag_has_source es s s' :
  run es s = Some s' ->
  Spec.handlers_installed (nodes s.1) ->
  Spec.flag_has_source s.1 -> Spec.flag_has_source s'.1.
Proof.
  revert s. induction es as [|e es IH]; intros s; cbn [run].
  - intros [= <-]. auto.
  - destruct (step e s) as [s1|] eqn:E; cbn; [|discriminate].
    intros Hr Hh Hinv. apply (IH s1 Hr).
    + exact (step_installed e s s1 E Hh).
    + exact (step_flag_has_source e s s1 E Hh Hinv).
Qed.

(** X11.  In every state the component reaches, a set playing flag comes with
    a current source that is audible: [sourceNodeRef] points to a node of the
    heap that was started, was not stopped, and whose [ended] event was not
    dispatched.  So the pause branch always finds the source it has to stop. *)
Theorem playing_flag_has_live_source
    (es : list Event) (s0 : State) (log0 : list GenAI.Request)
    (st : State) (log : list GenAI.Request) :
  nodes s0 = [] -> isPlaying s0 = false ->
  run es (s0, log0) = Some (st, log) ->
  isPlaying st = true ->
  exists r n,
    sourceNodeRef st = Some r /\ nodes st !! r = Some n /\
    WebAudio.started n <> None /\ WebAudio.stopped n = false /\ WebAudio.ended n = false.
Proof.
  intros Hempty Hpl Hrun Hplaying.
  assert (Hinv : Spec.flag_has_source st).
  { apply (run_flag_has_source es (s0, log0) (st, log) Hrun); cbn.
    - rewrite Hempty. constructor.
    - intros Hp. congruence. }
  destruct (Hinv Hplaying) as (r & n & Hr & Hn & Hlive).
  exists r, n. split; [exact Hr|]. split; [exact Hn|].
  unfold Spec.live in Hlive. destruct (WebAudio.started n); [|discriminate].
  apply andb_prop in Hlive as [H1 H2].
  split; [discriminate|]. split; [destruct (WebAudio.stopped n) | destruct (WebAudio.ended n)];
    (reflexivity || discriminate).
Qed.

Lemma playing_flag_has_live_source_witness :
  exists r n,
    sourceNodeRef (Spec.after [Generate Spec.good_browser; Toggle 1]) = Some r /\
    nodes (Spec.after [Generate Spec.good_browser; Toggle 1]) !! r = Some n /\
    WebAudio.started n <> None /\ WebAudio.stopped n = false /\ WebAudio.ended n = false.
Proof.
  apply (playing_flag_has_live_source
           [Generate Spec.good_browser; Toggle 1] Spec.typed_topic []
           (Spec.after [Generate Spec.good_browser; Toggle 1])
           (Spec.log_after [Generate Spec.good_browser; Toggle 1]));
    vm_compute; reflexivity.
Defined.

Lemma step_timeline e s s' t :
  step e s = Some s' ->
  Spec.clock_ordered t [e] = true ->
  (0 <= pausedTimeRef s.1)%Z -> (startTimeRef s.1 <= t)%Z ->
  (0 <= pausedTimeRef s'.1)%Z /\
  (startTimeRef s'.1 <= match e with Toggle t' => t' | _ => t end)%Z.
Proof.
  destruct s as [st log]. destruct e as [b | t' | c r]; cbn [step fst snd Spec.clock_ordered].
  - intros [= <-] _ Hp Hs.
    destruct (Spec.submits st) eqn:Hsub.
    + destruct (handleGenerate_playback b st log Hsub) as (_ & -> & -> & _). auto.
    + rewrite (handleGenerate_blank b st log Hsub). auto.
  - intros Ht Ho Hp Hs. rewrite andb_true_r in Ho. apply Z.leb_le in Ho.
    destruct (togglePlayback_cases t' st)
      as [E | [(e & E & _) | [(r & _ & _ & E) | (buf & _ & _ & E)]]];
      rewrite E in Ht; injection Ht as <-; cbn; lia.
  - unfold dispatch_ended. intros Hd _ Hp Hs.
    destruct (nodes st !! r) as [n|] eqn:Hn; cbn in Hd; [|discriminate].
    destruct (WebAudio.may_end c n); [|discriminate].
    injection Hd as <-. cbn [fst].
    destruct (WebAudio.onended n) as [[]|]; cbn; lia.
Qed.

Lemma run_timeline es : forall s s' t,
  run es s = Some s' ->
  Spec.clock_ordered t es = true ->
  (0 <= pausedTimeRef s.1)%Z -> (startTimeRef s.1 <= t)%Z ->
  (0 <= pausedTimeRef s'.1)%Z.
Proof.
  induction es as [|e es IH]; intros s s' t; cbn [run].
  - intros [= <-]. auto.
  - destruct (step e s) as [s1|] eqn:E; cbn [mbind option_bind]; [|discriminate].
    intros Hr Ho Hp Hs.
    assert (Ho1 : Spec.clock_ordered t [e] = true /\
                  Spec.clock_ordered (match e with Toggle t' => t' | _ => t end) es = true).
    { destruct e as [b | t' | c r]; cbn in *; auto.
      apply andb_prop in Ho as [H1 H2]. rewrite H1. auto. }
    destruct Ho1 as [Hoe Hoes].
    destruct (step_timeline e s s1 t E Hoe Hp Hs) as [Hp1 Hs1].
    exact (IH s1 s' _ Hr Hoes Hp1 Hs1).
Qed.

(** X12.  When the clock readings passed to [togglePlayback] never go back,
    the paused offset is never negative in any state the component reaches,
    so [source.start(0, offset)] never raises its [RangeError]: every further
    call of [togglePlayback] returns normally. *)
Theorem ordered_clock_keeps_offset_valid
    (es : list Event) (s0 : State) (log0 : list GenAI.Request)
    (st : State) (log : list GenAI.Request) (t0 : Z) :
  (0 <= pausedTimeRef s0)%Z -> (startTimeRef s0 <= t0)%Z ->
  Spec.clock_ordered t0 es = true ->
  run es (s0, log0) = Some (st, log) ->
  (0 <= pausedTimeRef st)%Z /\
  forall t, exists st', togglePlayback t st = Ok st'.
Proof.
  intros Hp Hs Ho Hrun.
  pose proof (run_timeline es (s0, log0) (st, log) t0 Hrun Ho Hp Hs) as Hpos.
  cbn in Hpos. split; [exact Hpos|].
  intros t.
  destruct (togglePlayback_cases t st)
    as [E | [(e & _ & Hneg) | [(r & _ & _ & E) | (buf & _ & _ & E)]]]; eauto.
  lia.
Qed.

Lemma ordered_clock_keeps_offset_valid_witness :
  (0 <= pausedTimeRef
          (Spec.after [Generate Spec.good_browser; Toggle 1; Toggle 6; Toggle 6; Toggle 9]))%Z /\
  forall t, exists st',
    togglePlayback t
      (Spec.after [Generate Spec.good_browser; Toggle 1; Toggle 6; Toggle 6; Toggle 9])
    = Ok st'.
Proof.
  apply (ordered_clock_keeps_offset_valid
           [Generate Spec.good_browser; Toggle 1; Toggle 6; Toggle 6; Toggle 9]
           Spec.typed_topic []
           (Spec.after [Generate Spec.good_browser; Toggle 1; Toggle 6; Toggle 6; Toggle 9])
           (Spec.log_after [Generate Spec.good_browser; Toggle 1; Toggle 6; Toggle 6; Toggle 9])
           0); vm_compute; (reflexivity || discriminate).
Defined.

Lemma lookup_tail {A} (h l : list A) (k : nat) : (h ++ l) !! (length h + k) = l !! k.
Proof.
  rewrite lookup_app_r by lia. f_equal. lia.
Qed.

Lemma insert_tail {A} (h l : list A) (k : nat) (x : A) :
  <[length h + k := x]> (h ++ l) = h ++ <[k := x]> l.
Proof.
  rewrite insert_app_r_alt by lia. do 2 f_equal. lia.
Qed.

Lemma lookup_tail_head {A} (h l : list A) (x : A) : (h ++ x :: l) !! length h = Some x.
Proof. pose proof (lookup_tail h (x :: l) 0) as H. rewrite Nat.add_0_r in H. exact H. Qed.

Lemma insert_tail_head {A} (h l : list A) (x y : A) :
  <[length h := y]> (h ++ x :: l) = h ++ y :: l.
Proof. pose proof (insert_tail h (x :: l) 0 y) as H. rewrite Nat.add_0_r in H. exact H. Qed.

(** X13.  Play, pause and resume, and only then the [ended] event of the
    source stopped by the pause is dispatched.  Its handler clears the
    playing flag and the offset while the resumed source is still audible;
    the next [togglePlayback] therefore does not pause but starts a third
    source at offset 0, and two sources routed to the destination are
    audible at once. *)
Theorem late_ended_event_overlaps_playback
    (st : State) (log : list GenAI.Request) (t1 t2 t3 t4 : Z) :
  Spec.playable st = true -> isPlaying st = false ->
  (0 <= pausedTimeRef st)%Z -> (t1 <= t2)%Z ->
  exists s3 s4 s5 n1 n2,
    run [Toggle t1; Toggle t2; Toggle t3] (st, log) = Some (s3, log) /\
    isPlaying s3 = true /\
    run [Ended WebAudio.StopCalled (length (nodes st))] (s3, log) = Some (s4, log) /\
    isPlaying s4 = false /\ pausedTimeRef s4 = 0%Z /\
    nodes s4 !! S (length (nodes st)) = Some n1 /\
    run [Toggle t4] (s4, log) = Some (s5, log) /\
    isPlaying s5 = true /\
    nodes s5 !! S (length (nodes st)) = Some n1 /\
    nodes s5 !! S (S (length (nodes st))) = Some n2 /\
    Spec.live n1 = true /\ Spec.live n2 = true /\
    WebAudio.started n2 = Some 0%Z /\
    WebAudio.destination ∈ WebAudio.outputs n1 /\
    WebAudio.destination ∈ WebAudio.outputs n2.
Proof.
  intros Hp Hplay Hoff Ht.
  destruct (togglePlayback_play st t1 Hp Hplay Hoff) as (buf & _ & E1).
  set (s1 := set_nodes _ _) in E1.
  assert (Hp1 : Spec.playable s1 = true) by exact Hp.
  pose proof (togglePlayback_pause s1 t2 (length (nodes st)) Hp1 eq_refl eq_refl) as E2.
  set (s2 := setIsPlaying false _) in E2.
  assert (Hn2 : nodes s2 = nodes st ++
            [ {| WebAudio.buffer := Some buf; WebAudio.outputs := [WebAudio.destination];
                 WebAudio.started := Some (pausedTimeRef st); WebAudio.stopped := true;
                 WebAudio.onended := Some WebAudio.ResetPlayback;
                 WebAudio.ended := false |} ]).
  { subst s2 s1. cbn [nodes set_nodes setIsPlaying set_pausedTimeRef].
    rewrite stop_quietly_fresh by discriminate. reflexivity. }
  assert (Hp2 : Spec.playable s2 = true) by exact Hp.
  assert (Hoff2 : (0 <= pausedTimeRef s2)%Z) by (subst s2 s1; cbn; lia).
  destruct (togglePlayback_play s2 t3 Hp2 eq_refl Hoff2) as (buf2 & _ & E3).
  set (s3 := set_nodes _ _) in E3.
  assert (Hn3 : nodes s3 = nodes st ++
            [ {| WebAudio.buffer := Some buf; WebAudio.outputs := [WebAudio.destination];
                 WebAudio.started := Some (pausedTimeRef st); WebAudio.stopped := true;
                 WebAudio.onended := Some WebAudio.ResetPlayback;
                 WebAudio.ended := false |};
              Spec.playing_node buf2 (pausedTimeRef s2) ]).
  { subst s3. cbn [nodes set_nodes]. rewrite Hn2, <- app_assoc. reflexivity. }
  set (stopped0 := {| WebAudio.buffer := Some buf; WebAudio.stopped := true |}) in *.
  set (s4 := set_pausedTimeRef 0
               (setIsPlaying false
                  (set_nodes (nodes st ++ [WebAudio.mark_ended stopped0;
                                           Spec.playing_node buf2 (pausedTimeRef s2)]) s3))).
  assert (E4 : dispatch_ended WebAudio.StopCalled (length (nodes st)) s3 = Some s4).
  { unfold dispatch_ended. rewrite Hn3, lookup_tail_head. cbn [mbind option_bind].
    rewrite insert_tail_head. reflexivity. }
  assert (Hp4 : Spec.playable s4 = true) by exact Hp.
  destruct (togglePlayback_play s4 t4 Hp4 eq_refl (Z.le_refl 0)) as (buf4 & _ & E5).
  set (s5 := set_nodes _ _) in E5.
  exists s3, s4, s5, (Spec.playing_node buf2 (pausedTimeRef s2)), (Spec.playing_node buf4 0).
  split. { cbn [run step fst snd mbind option_bind]. rewrite E1. cbn [mbind option_bind fst snd].
           rewrite E2. cbn [mbind option_bind fst snd]. rewrite E3. reflexivity. }
  split; [reflexivity|].
  split. { cbn [run step fst snd mbind option_bind]. rewrite E4. reflexivity. }
  split; [reflexivity|]. split; [reflexivity|].
  split. { subst s4. cbn [nodes set_nodes setIsPlaying set_pausedTimeRef].
           rewrite <- (Nat.add_1_r (length (nodes st))), lookup_tail. reflexivity. }
  split. { cbn [run step fst snd mbind option_bind]. rewrite E5. reflexivity. }
  split; [reflexivity|].
  assert (Hn5 : nodes s5 = nodes st ++ [WebAudio.mark_ended stopped0;
                                        Spec.playing_node buf2 (pausedTimeRef s2);
                                        Spec.playing_node buf4 0]).
  { subst s5 s4. cbn [nodes set_nodes setIsPlaying set_pausedTimeRef pausedTimeRef].
    rewrite <- app_assoc. reflexivity. }
  split. { rewrite Hn5, <- (Nat.add_1_r (length (nodes st))), lookup_tail. reflexivity. }
  split. { rewrite Hn5.
           replace (S (S (length (nodes st)))) with (length (nodes st) + 2) by lia.
           rewrite lookup_tail. reflexivity. }
  repeat split; try reflexivity; apply list_elem_of_singleton; reflexivity.
Qed.

Lemma late_ended_event_overlaps_playback_witness :
  exists s3 s4 s5 n1 n2,
    run [Toggle 1; Toggle 6; Toggle 7] (Spec.after [Generate Spec.good_browser], [])
      = Some (s3, []) /\
    isPlaying s3 = true /\
    run [Ended WebAudio.StopCalled 0] (s3, []) = Some (s4, []) /\
    isPlaying s4 = false /\ pausedTimeRef s4 = 0%Z /\
    nodes s4 !! 1 = Some n1 /\
    run [Toggle 8] (s4, []) = Some (s5, []) /\
    isPlaying s5 = true /\
    nodes s5 !! 1 = Some n1 /\
    nodes s5 !! 2 = Some n2 /\
    Spec.live n1 = true /\ Spec.live n2 = true /\
    WebAudio.started n2 = Some 0%Z /\
    WebAudio.destination ∈ WebAudio.outputs n1 /\
    WebAudio.destination ∈ WebAudio.outputs n2.
Proof.
  apply (late_ended_event_overlaps_playback
           (Spec.after [Generate Spec.good_browser]) [] 1 6 7 8);
    vm_compute; (reflexivity || discriminate).
Defined.

Lemma completed_is_playable b st log :
  Spec.submits st = true ->
  loadingStage (handleGenerate b st log).1 = Types.COMPLETE ->
  Spec.playable (handleGenerate b st log).1 = true /\
  nodes (handleGenerate b st log).1 = nodes (resetForGeneration st).
Proof.
  intros Hsub Hdone.
  destruct (handleGenerate_playback b st log Hsub) as (_ & _ & _ & _ & Hn).
  split; [|exact Hn].
  destruct (handleGenerate_spec b st log Hsub) as (st1 & r & log' & Hg & E).
  rewrite E in *. cbn [fst] in *.
  destruct (generation_spec _ _ _ _ _ _ Hg) as (_ & _ & Hr).
  destruct r as [u|err]; [|discriminate].
  destruct Hr as (_ & Hctx & script & log1 & cover & log2 & audio & _ & _ & _ & Hep).
  unfold Spec.playable. rewrite Hep. cbn.
  destruct (audioContextRef st1); [reflexivity|congruence].
Qed.

(** X14.  A generation started while a source is audible stops that source.
    When the generation completes and the stopped source's [ended] event is
    dispatched, its handler puts the paused offset to zero, whatever offset
    was left, and the first [togglePlayback] on the new episode starts its
    buffer at offset 0. *)
Theorem generation_then_ended_starts_at_zero
    (b : Browser) (st : State) (log : list GenAI.Request)
    (r : WebAudio.Ref) (n : WebAudio.AudioBufferSourceNode) :
  sourceNodeRef st = Some r -> nodes st !! r = Some n ->
  Spec.live n = true -> WebAudio.onended n = Some WebAudio.ResetPlayback ->
  Spec.submits st = true ->
  loadingStage (handleGenerate b st log).1 = Types.COMPLETE ->
  exists n' st2,
    nodes (handleGenerate b st log).1 !! r = Some n' /\
    WebAudio.stopped n' = true /\
    dispatch_ended WebAudio.StopCalled r (handleGenerate b st log).1 = Some st2 /\
    isPlaying st2 = false /\ pausedTimeRef st2 = 0%Z /\
    forall t, exists buf,
      togglePlayback t st2 =
        Ok (set_nodes (nodes st2 ++ [Spec.playing_node buf 0])
              (setIsPlaying true
                 (set_sourceNodeRef (Some (length (nodes st2)))
                    (set_startTimeRef t st2)))).
Proof.
  intros Hr Hn Hlive Hon Hsub Hdone.
  destruct (completed_is_playable b st log Hsub Hdone) as (Hp & Hnodes).
  destruct (resetForGeneration_cleared st) as (_ & _ & _ & _ & _ & _ & _ & Hreset).
  rewrite Hreset, Hr in Hnodes.
  unfold Spec.live in Hlive.
  destruct (WebAudio.started n) as [off|] eqn:Hst; [|discriminate].
  apply andb_prop in Hlive as [Hns Hne].
  set (n' := {| WebAudio.buffer := WebAudio.buffer n; WebAudio.outputs := WebAudio.outputs n;
                WebAudio.started := WebAudio.started n; WebAudio.stopped := true;
                WebAudio.onended := WebAudio.onended n; WebAudio.ended := WebAudio.ended n |}).
  assert (Hq : WebAudio.stop_quietly r (nodes st) = <[r := n']> (nodes st)).
  { unfold WebAudio.stop_quietly, WebAudio.stop, n'. rewrite Hn, Hst. reflexivity. }
  rewrite Hq in Hnodes.
  assert (Hl : nodes (handleGenerate b st log).1 !! r = Some n').
  { rewrite Hnodes. apply list_lookup_insert_eq. exact (lookup_lt_Some _ _ _ Hn). }
  set (st1 := (handleGenerate b st log).1) in *.
  set (st2 := set_pausedTimeRef 0
                (setIsPlaying false
                   (set_nodes (<[r := WebAudio.mark_ended n']> (nodes st1)) st1))).
  assert (E : dispatch_ended WebAudio.StopCalled r st1 = Some st2).
  { assert (Hmay : WebAudio.may_end WebAudio.StopCalled n' = true).
    { unfold WebAudio.may_end, n'. cbn. rewrite Hst, Hne. reflexivity. }
    assert (Hon' : WebAudio.onended n' = Some WebAudio.ResetPlayback) by exact Hon.
    unfold dispatch_ended. rewrite Hl. cbn [mbind option_bind].
    rewrite Hmay, Hon'. reflexivity. }
  exists n', st2. split; [exact Hl|]. split; [reflexivity|]. split; [exact E|].
  split; [reflexivity|]. split; [reflexivity|].
  intros t.
  assert (Hp2 : Spec.playable st2 = true) by exact Hp.
  destruct (togglePlayback_play st2 t Hp2 eq_refl (Z.le_refl 0)) as (buf & _ & E2).
  exists buf. exact E2.
Qed.

(** The previous episode is playing (from offset 0, at clock reading 1) when
    the next generation is submitted. *)
Lemma generation_then_ended_starts_at_zero_witness :
  let st := Spec.after [Generate Spec.good_browser; Toggle 1] in
  exists n' st2,
    nodes (handleGenerate Spec.good_browser st []).1 !! 0 = Some n' /\
    WebAudio.stopped n' = true /\
    dispatch_ended WebAudio.StopCalled 0 (handleGenerate Spec.good_browser st []).1
      = Some st2 /\
    isPlaying st2 = false /\ pausedTimeRef st2 = 0%Z /\
    forall t, exists buf,
      togglePlayback t st2 =
        Ok (set_nodes (nodes st2 ++ [Spec.playing_node buf 0])
              (setIsPlaying true
                 (set_sourceNodeRef (Some (length (nodes st2)))
                    (set_startTimeRef t st2)))).
Proof.
  intros st.
  apply (generation_then_ended_starts_at_zero Spec.good_browser st [] 0
           (default WebAudio.fresh_node (nodes st !! 0)));
    vm_compute; reflexivity.
Defined.

Lemma initAudio_with_context b b' st ctx :
  audioContextRef st = Some ctx -> initAudio b' st = initAudio b st.
Proof.
  unfold initAudio. intros ->. reflexivity.
Qed.

(** X15.  The audio context is constructed at most once.  Without a context,
    a constructor that throws ends a submitted generation before anything is
    sent: no episode, the stage [ERROR], and the constructor's message (the
    default text when it is empty).  With a context in the ref, the
    constructor plays no part: two browsers that differ in it only give the
    same result. *)
Theorem audio_context_is_constructed_once
    (b : Browser) (st : State) (log : list GenAI.Request) :
  Spec.submits st = true ->
  (forall e,
     audioContextRef st = None -> new_AudioContext b = Throw e ->
     (handleGenerate b st log).2 = log /\
     episode (handleGenerate b st log).1 = None /\
     loadingStage (handleGenerate b st log).1 = Types.ERROR /\
     error (handleGenerate b st log).1 =
       Some (match Js.message e with
             | EmptyString => "Something went wrong creating your podcast."
             | msg => msg
             end)) /\
  (forall ctx b',
     audioContextRef st = Some ctx ->
     service b' = service b -> Date_now b' = Date_now b ->
     audio_rejects_first b' = audio_rejects_first b ->
     handleGenerate b' st log = handleGenerate b st log).
Proof.
  intros Hsub. split.
  - intros e Hnone Hthrow.
    destruct (handleGenerate_spec b st log Hsub) as (st1 & r & log' & Hg & ->).
    destruct (resetForGeneration_cleared st) as (Hep & _).
    assert (Hi : initAudio b (resetForGeneration st) = Throw e).
    { unfold initAudio, resetForGeneration. cbn.
      destruct (sourceNodeRef st); cbn; rewrite Hnone, Hthrow; reflexivity. }
    unfold generation in Hg. rewrite Hi in Hg. injection Hg as <- <- <-. cbn.
    split; [reflexivity|]. split; [exact Hep|]. split; [reflexivity|].
    destruct (Js.message e); reflexivity.
  - intros ctx b' Hctx Hs Hd Ha.
    unfold handleGenerate.
    destruct (negb (Js.truthy (Some (Js.trim (topic st))))); [reflexivity|].
    assert (Hc : audioContextRef (resetForGeneration st) = Some ctx).
    { unfold resetForGeneration. cbn. destruct (sourceNodeRef st); exact Hctx. }
    unfold generation.
    rewrite (initAudio_with_context b b' _ ctx Hc), Hs, Hd, Ha. reflexivity.
Qed.

Lemma audio_context_is_constructed_once_witness :
  ((handleGenerate Spec.no_audio Spec.typed_topic []).2 = [] /\
   episode (handleGenerate Spec.no_audio Spec.typed_topic []).1 = None /\
   loadingStage (handleGenerate Spec.no_audio Spec.typed_topic []).1 = Types.ERROR /\
   error (handleGenerate Spec.no_audio Spec.typed_topic []).1 =
     Some "AudioContextClass is not a constructor") /\
  handleGenerate Spec.no_audio (Spec.after [Generate Spec.good_browser]) [] =
  handleGenerate Spec.good_browser (Spec.after [Generate Spec.good_browser]) [].
Proof.
  split.
  - destruct (audio_context_is_constructed_once Spec.no_audio Spec.typed_topic [] eq_refl)
      as (H & _).
    exact (H _ eq_refl eq_refl).
  - destruct (audio_context_is_constructed_once Spec.good_browser
                (Spec.after [Generate Spec.good_browser]) [] eq_refl) as (_ & H).
    exact (H {| WebAudio.state := WebAudio.running |} Spec.no_audio
             eq_refl eq_refl eq_refl eq_refl).
Defined.

End Timeline.

(* ===================================================================== *)
(** * Further properties of the visualizer *)
(* ===================================================================== *)

Section RedrawLoop.

Import AudioVisualizer.

Lemma attach_frames p r w w' :
  attach p r w = Ok w' ->
  frames w' = frames w /\ next_frame w' = next_frame w /\
  animationRef w' = animationRef w /\ canvasRef w' = canvasRef w /\
  analyserRef w' = analyserRef w.
Proof.
  intros E. destruct (attach_absorbs p r w) as (w1 & E1 & _ & H1 & H2 & H3 & H4 & H5).
  rewrite E in E1. injection E1 as <-. auto.
Qed.

Lemma effect_arms p props w ctx r canvas :
  Types.audioContext props = Some ctx ->
  Types.sourceNode props = Some r ->
  Types.isPlaying props = true ->
  canvasRef w = Some canvas -> context2d canvas = true ->
  frames w = [] ->
  exists w1, effect p props w = Ok (w1, true) /\ Spec.loop_armed w1 /\
             canvasRef w1 = canvasRef w.
Proof.
  intros Hc Hs Hp Hcv H2d Hfr. unfold effect. rewrite Hc, Hs, Hp, Hcv, H2d. cbn [negb].
  set (w0 := match analyserRef w with
             | Some _ => w
             | None => set_analyserRef (Some {| fftSize := 256 |}) w
             end).
  assert (Hw0 : frames w0 = [] /\ canvasRef w0 = canvasRef w).
  { subst w0. destruct (analyserRef w); cbn; auto. }
  destruct Hw0 as [Hfr0 Hcv0]. clearbody w0.
  destruct (attach_absorbs p r w0) as (wa & Ea & _ & Hcva & _ & _ & Hfra & _).
  rewrite Ea. cbn [mbind Js.Result_bind].
  eexists. split; [reflexivity|]. unfold Spec.loop_armed, draw. cbn.
  rewrite Hfra, Hfr0. split; [reflexivity|]. congruence.
Qed.

Lemma fire_armed w :
  Spec.loop_armed w ->
  exists w', Frames.fire (animationRef w) w = Some w' /\ Spec.loop_armed w' /\
             canvasRef w' = canvasRef w /\ analyserRef w' = analyserRef w /\
             heap w' = heap w.
Proof.
  unfold Spec.loop_armed, Frames.fire. intros Hfr.
  destruct (decide (animationRef w ∈ frames w)) as [_|Hnot].
  2:{ exfalso. apply Hnot. rewrite Hfr. apply list_elem_of_singleton. reflexivity. }
  eexists. split; [reflexivity|]. unfold draw. cbn. rewrite Hfr. cbn.
  destruct (decide (animationRef w <> animationRef w)) as [Hne|_]; [contradiction|].
  cbn. auto.
Qed.

Lemma fire_loop_armed n : forall w,
  Spec.loop_armed w ->
  exists w', Frames.fire_loop n w = Some w' /\ Spec.loop_armed w' /\
             canvasRef w' = canvasRef w /\ analyserRef w' = analyserRef w /\
             heap w' = heap w.
Proof.
  induction n as [|n IH]; intros w Harmed; cbn [Frames.fire_loop].
  - eauto 6.
  - destruct (fire_armed w Harmed) as (w1 & E1 & Harmed1 & Hc1 & Ha1 & Hh1).
    rewrite E1. cbn [mbind option_bind].
    destruct (IH w1 Harmed1) as (w' & E & Harmed' & Hc & Ha & Hh).
    exists w'. split; [exact E|]. split; [exact Harmed'|].
    split; [congruence|]. split; congruence.
Qed.

(** X16.  The redraw loop keeps exactly one frame pending and its cleanup
    leaves none.  From a canvas with no frame pending, the effect run with a
    source and the playing flag set requests one frame; however many times
    the browser fires the pending frame, [draw] has requested exactly one
    next frame, the one held in [animationRef]; after the cleanup no frame is
    pending, none can fire, and the effect run with the playing flag cleared
    changes nothing and returns no cleanup. *)
Theorem redraw_loop_is_cancelled_by_cleanup
    (p : Platform) (props : Types.AudioVisualizerProps) (w : World)
    (ctx : WebAudio.AudioContext) (r : WebAudio.Ref) (canvas : Canvas) (n : nat) :
  Types.audioContext props = Some ctx ->
  Types.sourceNode props = Some r ->
  Types.isPlaying props = true ->
  canvasRef w = Some canvas -> context2d canvas = true ->
  frames w = [] ->
  exists w1 wn,
    effect p props w = Ok (w1, true) /\
    Frames.fire_loop n w1 = Some wn /\
    frames wn = [animationRef wn] /\
    frames (cleanup wn) = [] /\
    (forall handle, Frames.fire handle (cleanup wn) = None) /\
    effect p {| Types.audioContext := Types.audioContext props;
                Types.sourceNode := Types.sourceNode props;
                Types.isPlaying := false |} (cleanup wn) = Ok (cleanup wn, false).
Proof.
  intros Hc Hs Hp Hcv H2d Hfr.
  destruct (effect_arms p props w ctx r canvas Hc Hs Hp Hcv H2d Hfr)
    as (w1 & E1 & Harmed1 & _).
  destruct (fire_loop_armed n w1 Harmed1) as (wn & En & Harmedn & _).
  exists w1, wn. split; [exact E1|]. split; [exact En|]. split; [exact Harmedn|].
  assert (Hclean : frames (cleanup wn) = []).
  { unfold cleanup, cancelAnimationFrame. cbn. rewrite Harmedn. cbn.
    destruct (decide (animationRef wn <> animationRef wn)) as [Hne|_];
      [contradiction|reflexivity]. }
  split; [exact Hclean|]. split.
  - intros handle. unfold Frames.fire. rewrite Hclean.
    destruct (decide (handle ∈ [])) as [Hin|_]; [|reflexivity].
    apply elem_of_nil in Hin. contradiction.
  - unfold effect. cbn [Types.audioContext Types.sourceNode Types.isPlaying].
    rewrite Hc, Hs.
    assert (Hsame : cancelAnimationFrame (animationRef (cleanup wn)) (cleanup wn) = cleanup wn).
    { unfold cleanup, cancelAnimationFrame in *. cbn in *. rewrite Hclean. reflexivity. }
    rewrite Hsame. destruct (animationRef (cleanup wn) =? 0); reflexivity.
Qed.

Lemma redraw_loop_is_cancelled_by_cleanup_witness :
  exists w1 wn,
    effect Spec.strict_platform Spec.playing_props Spec.mounted = Ok (w1, true) /\
    Frames.fire_loop 3 w1 = Some wn /\
    frames wn = [animationRef wn] /\
    frames (cleanup wn) = [] /\
    (forall handle, Frames.fire handle (cleanup wn) = None) /\
    effect Spec.strict_platform
      {| Types.audioContext := Types.audioContext Spec.playing_props;
         Types.sourceNode := Types.sourceNode Spec.playing_props;
         Types.isPlaying := false |} (cleanup wn) = Ok (cleanup wn, false).
Proof.
  apply (redraw_loop_is_cancelled_by_cleanup Spec.strict_platform Spec.playing_props
           Spec.mounted {| WebAudio.state := WebAudio.running |} 0
           {| width := 600; height := 100; context2d := true |} 3);
    reflexivity.
Defined.

Lemma only_more_outputs_refl n : Spec.only_more_outputs n n.
Proof. unfold Spec.only_more_outputs. auto 10. Qed.

Lemma graph_kept_refl h : Spec.graph_kept h h.
Proof.
  split; [reflexivity|]. intros r n Hn. exists n. split; [exact Hn|].
  apply only_more_outputs_refl.
Qed.

Lemma connect_only_more_outputs t n : Spec.only_more_outputs n (WebAudio.connect t n).
Proof.
  unfold Spec.only_more_outputs, WebAudio.connect. cbn.
  repeat split. intros t0 Hin.
  destruct (existsb _ (WebAudio.outputs n)); [exact Hin|].
  apply elem_of_app. left. exact Hin.
Qed.

Lemma graph_kept_insert h r n n' :
  h !! r = Some n -> Spec.only_more_outputs n n' -> Spec.graph_kept h (<[r := n']> h).
Proof.
  intros Hn Hmore. split; [apply length_insert|].
  intros r0 n0 Hn0. destruct (decide (r = r0)) as [<-|Hne].
  - exists n'. split.
    + apply list_lookup_insert_eq. exact (lookup_lt_Some _ _ _ Hn).
    + rewrite Hn in Hn0. injection Hn0 as <-. exact Hmore.
  - exists n0. split.
    + rewrite list_lookup_insert_ne by exact Hne. exact Hn0.
    + apply only_more_outputs_refl.
Qed.

Lemma attach_graph_kept p r w w' :
  attach p r w = Ok w' -> Spec.graph_kept (heap w) (heap w').
Proof.
  unfold attach, connectAnalyser.
  destruct (heap w !! r) as [n|] eqn:Hn; cbn.
  - destruct (connect_raises p n); cbn; intros [= <-]; cbn.
    + apply graph_kept_refl.
    + apply (graph_kept_insert _ _ n); [exact Hn | apply connect_only_more_outputs].
  - intros [= <-]. apply graph_kept_refl.
Qed.

(** X17.  The visualizer only taps: whatever the props and the browser, the
    effect returns normally, and after it, after its cleanup and after any
    fired frame, every source node has the buffer, the start, stop and ended
    marks and the handler it had, and every output it had (the destination
    among them); no node is added or removed.  The tap is never
    disconnected. *)
Theorem visualizer_only_adds_a_tap
    (p : Platform) (props : Types.AudioVisualizerProps) (w : World) :
  exists w' c,
    effect p props w = Ok (w', c) /\
    Spec.graph_kept (heap w) (heap w') /\
    heap (cleanup w') = heap w' /\
    forall handle w'', Frames.fire handle w' = Some w'' -> heap w'' = heap w'.
Proof.
  assert (Hfire : forall w0 handle w'', Frames.fire handle w0 = Some w'' -> heap w'' = heap w0).
  { intros w0 handle w''. unfold Frames.fire.
    destruct (decide (handle ∈ frames w0)); [|discriminate].
    intros [= <-]. reflexivity. }
  unfold effect.
  destruct (Types.audioContext props) as [ctx|];
    [destruct (Types.sourceNode props) as [r|];
     [destruct (Types.isPlaying props)|]|].
  2-4: (eexists; eexists; split; [reflexivity|];
        split; [destruct (animationRef w =? 0); apply graph_kept_refl|];
        split; [reflexivity|]; apply Hfire).
  destruct (canvasRef w) as [canvas|].
  2:{ eexists. eexists. split; [reflexivity|]. split; [apply graph_kept_refl|].
      split; [reflexivity|]. apply Hfire. }
  destruct (context2d canvas); cbn [negb].
  2:{ eexists. eexists. split; [reflexivity|]. split; [apply graph_kept_refl|].
      split; [reflexivity|]. apply Hfire. }
  set (w0 := match analyserRef w with
             | Some _ => w
             | None => set_analyserRef (Some {| fftSize := 256 |}) w
             end).
  assert (Hh0 : heap w0 = heap w) by (subst w0; destruct (analyserRef w); reflexivity).
  clearbody w0.
  destruct (attach_absorbs p r w0) as (wa & Ea & _).
  rewrite Ea. cbn [mbind Js.Result_bind].
  eexists. eexists. split; [reflexivity|].
  split; [|split; [reflexivity | apply Hfire]].
  rewrite <- Hh0. exact (attach_graph_kept p r w0 wa Ea).
Qed.

End RedrawLoop.

(* ===================================================================== *)
(** * The bars drawn by the visualizer *)
(* ===================================================================== *)

Section BarLayout.

Import AudioVisualizer.

Lemma loop_length canvas bw data : forall x0,
  length (Bars.loop canvas bw data x0) = length data.
Proof.
  induction data as [|d data IH]; intros x0; cbn; [reflexivity|].
  rewrite IH. reflexivity.
Qed.

Lemma loop_lookup canvas bw data : forall x0 i d,
  data !! i = Some d ->
  exists rect,
    Bars.loop canvas bw data x0 !! i = Some rect /\
    (Bars.x rect == x0 + inject_Z (Z.of_nat i) * (bw + 1))%Q /\
    Bars.w rect = bw /\
    Bars.h rect = (inject_Z d / 2)%Q /\
    Bars.y rect = (inject_Z (height canvas) - inject_Z d / 2)%Q.
Proof.
  induction data as [|d0 data IH]; intros x0 i d Hd; [discriminate|].
  destruct i as [|i]; cbn in Hd.
  - injection Hd as <-. eexists. split; [reflexivity|]. cbn.
    split; [ring|]. auto.
  - destruct (IH (x0 + (bw + 1))%Q i d Hd) as (rect & Hr & Hx & Hw & Hh & Hy).
    exists rect. split; [exact Hr|]. split; [|auto].
    assert (Hs : (inject_Z (Z.of_nat (S i)) == inject_Z (Z.of_nat i) + 1)%Q).
    { rewrite Nat2Z.inj_succ. unfold Z.succ. rewrite inject_Z_plus. reflexivity. }
    rewrite Hx, Hs. ring.
Qed.

Lemma inside_criterion (W n i : Z) :
  (0 < n)%Z ->
  (inject_Z i * ((inject_Z W / inject_Z n) * (5 # 2) + 1) < inject_Z W)%Q <->
  (i * (5 * W + 2 * n) < 2 * n * W)%Z.
Proof.
  intros Hn.
  assert (Hn0 : ~ (inject_Z n == 0)%Q).
  { unfold Qeq, inject_Z. cbn. lia. }
  assert (E : (inject_Z i * ((inject_Z W / inject_Z n) * (5 # 2) + 1) ==
               inject_Z (i * (5 * W + 2 * n)) / inject_Z (2 * n))%Q).
  { rewrite !inject_Z_mult, !inject_Z_plus, !inject_Z_mult. field. exact Hn0. }
  rewrite E.
  assert (Hpos : (0 < inject_Z (2 * n))%Q).
  { change 0%Q with (inject_Z 0). rewrite <- Zlt_Qlt. lia. }
  split.
  - intros H.
    assert (H2 : (inject_Z (i * (5 * W + 2 * n)) < inject_Z W * inject_Z (2 * n))%Q).
    { apply (Qmult_lt_r _ _ (/ inject_Z (2 * n))).
      - apply Qinv_lt_0_compat. exact Hpos.
      - rewrite <- Qmult_assoc, Qmult_inv_r, Qmult_1_r; [exact H|].
        intros H0. rewrite H0 in Hpos. exact (Qlt_irrefl 0 Hpos). }
    rewrite <- inject_Z_mult in H2. rewrite <- Zlt_Qlt in H2. lia.
  - intros H. apply Qlt_shift_div_r; [exact Hpos|].
    rewrite <- inject_Z_mult. rewrite <- Zlt_Qlt. lia.
Qed.

(** X18.  One [draw] fills one bar per frequency bin.  Bar [i] starts at
    [i * (barWidth + 1)] with [barWidth = width / bins * 2.5], is half as high
    as the bin's level (at most 127.5 for a byte) and stands on the bottom
    edge of the canvas.  It starts left of the right edge exactly when
    [i * (5 * width + 2 * bins) < 2 * bins * width]: from bin [0.4 * bins]
    on every bar is drawn outside the canvas. *)
Theorem bars_layout (canvas : Canvas) (dataArray : list Z) (i : nat) (d : Z) :
  dataArray !! i = Some d ->
  length (Bars.bars canvas dataArray) = length dataArray /\
  exists rect,
    Bars.bars canvas dataArray !! i = Some rect /\
    (Bars.x rect ==
       inject_Z (Z.of_nat i) * (Bars.barWidth canvas (length dataArray) + 1))%Q /\
    Bars.w rect = Bars.barWidth canvas (length dataArray) /\
    Bars.h rect = (inject_Z d / 2)%Q /\
    (Bars.y rect + Bars.h rect == inject_Z (height canvas))%Q /\
    ((0 <= d <= 255)%Z -> (0 <= Bars.h rect)%Q /\ (Bars.h rect <= 255 # 2)%Q) /\
    ((Bars.x rect < inject_Z (width canvas))%Q <->
     (Z.of_nat i * (5 * width canvas + 2 * Z.of_nat (length dataArray))
      < 2 * Z.of_nat (length dataArray) * width canvas)%Z) /\
    ((0 <= width canvas)%Z -> (2 * Z.of_nat (length dataArray) <= 5 * Z.of_nat i)%Z ->
     (inject_Z (width canvas) <= Bars.x rect)%Q).
Proof.
  intros Hd. split; [apply loop_length|].
  assert (Hn : (0 < Z.of_nat (length dataArray))%Z).
  { pose proof (lookup_lt_Some _ _ _ Hd). lia. }
  destruct (loop_lookup canvas (Bars.barWidth canvas (length dataArray)) dataArray 0%Q i d Hd)
    as (rect & Hr & Hx & Hw & Hh & Hy).
  assert (Hx' : (Bars.x rect ==
                 inject_Z (Z.of_nat i) * (Bars.barWidth canvas (length dataArray) + 1))%Q).
  { rewrite Hx. ring. }
  assert (Hcrit : (Bars.x rect < inject_Z (width canvas))%Q <->
     (Z.of_nat i * (5 * width canvas + 2 * Z.of_nat (length dataArray))
      < 2 * Z.of_nat (length dataArray) * width canvas)%Z).
  { rewrite Hx'. unfold Bars.barWidth. apply inside_criterion, Hn. }
  exists rect. split; [exact Hr|]. split; [exact Hx'|]. split; [exact Hw|].
  split; [exact Hh|]. split; [rewrite Hy, Hh; ring|]. split.
  { intros [Hlo Hhi]. rewrite Hh.
    assert (H0 : (0 <= inject_Z d)%Q) by (change 0%Q with (inject_Z 0); rewrite <- Zle_Qle; lia).
    assert (H1 : (inject_Z d <= inject_Z 255)%Q) by (rewrite <- Zle_Qle; lia).
    change (inject_Z 255) with (255 # 1)%Q in H1.
    split.
    - apply Qle_shift_div_l; [reflexivity|]. lra.
    - apply Qle_shift_div_r; [reflexivity|]. lra. }
  split; [exact Hcrit|].
  intros HW Hi. apply Qnot_lt_le. rewrite Hcrit.
  assert (H1 : (2 * Z.of_nat (length dataArray) * width canvas
                <= 5 * Z.of_nat i * width canvas)%Z)
    by (apply Z.mul_le_mono_nonneg_r; lia).
  assert (H2 : (0 <= Z.of_nat i * Z.of_nat (length dataArray))%Z)
    by (apply Z.mul_nonneg_nonneg; lia).
  lia.
Qed.

(** On the component's canvas, 600 wide with 128 bins: bar 47 starts inside,
    bar 48 starts right of the edge. *)
Lemma bars_layout_witness :
  (exists rect,
     Bars.bars Spec.component_canvas Spec.loud_snapshot !! 47 = Some rect /\
     (Bars.x rect < inject_Z 600)%Q) /\
  (exists rect,
     Bars.bars Spec.component_canvas Spec.loud_snapshot !! 48 = Some rect /\
     ~ (Bars.x rect < inject_Z 600)%Q /\
     Bars.h rect = (inject_Z 200 / 2)%Q).
Proof.
  split.
  - destruct (bars_layout Spec.component_canvas Spec.loud_snapshot 47 200 eq_refl)
      as (_ & rect & Hr & _ & _ & _ & _ & _ & Hcrit & _).
    exists rect. split; [exact Hr|]. apply Hcrit. reflexivity.
  - destruct (bars_layout Spec.component_canvas Spec.loud_snapshot 48 200 eq_refl)
      as (_ & rect & Hr & _ & _ & Hh & _ & _ & Hcrit & _).
    exists rect. split; [exact Hr|]. split; [|exact Hh].
    intros Hlt. apply Hcrit in Hlt. revert Hlt. vm_compute. discriminate.
Defined.

End BarLayout.
